(** * better-lover: the Discord relay bot of [app/bot.py]

    A shallow embedding of [split_message] and of the message handler
    [BetterLover.on_message] with its three relay pipelines
    ([process_text], [process_image], [process_image_url]), followed by the
    properties of the chunking algorithm and of the dispatch.

    Python strings are sequences of Unicode code points, and [len] counts
    code points: a [str] is a list of code points here.  Logging has no part
    in the model. *)

From Stdlib Require String.
From Stdlib Require Import List NArith ZArith Lia Bool Ascii DecimalString.
Import String.StringSyntax.
Import ListNotations.

(** ** Python strings *)

Module PyStr.

Definition char := N.
Definition str := list char.

(** An ASCII literal of the source as a [str]. *)
Definition lit (s : String.string) : str :=
  map N_of_ascii (String.list_ascii_of_string s).
Arguments lit s%_string_scope.

Definition newline : char := 10%N.

Definition eqb (a b : str) : bool :=
  if list_eq_dec N.eq_dec a b then true else false.

(** Truth value of a string: [if s:] holds for the non-empty ones. *)
Definition truthy (s : str) : bool :=
  match s with
  | [] => false
  | _ :: _ => true
  end.

(** [str.isspace] on one code point: the white space that [str.strip()]
    removes (CPython's [_PyUnicode_IsWhitespace]). *)
Definition is_space (c : char) : bool :=
  ((9 <=? c) && (c <=? 13) ||
   (28 <=? c) && (c <=? 32) ||
   (c =? 133) || (c =? 160) || (c =? 5760) ||
   (8192 <=? c) && (c <=? 8202) ||
   (c =? 8232) || (c =? 8233) || (c =? 8239) || (c =? 8287) ||
   (c =? 12288))%N.

Fixpoint lstrip (s : str) : str :=
  match s with
  | [] => []
  | c :: s' => if is_space c then lstrip s' else s
  end.

Definition rstrip (s : str) : str := rev (lstrip (rev s)).

(** [s.strip()] *)
Definition strip (s : str) : str := lstrip (rstrip s).

(** [s.split(sep)] for a separator of one character: the pieces between the
    separators, never an empty list. *)
Fixpoint split (sep : char) (s : str) : list str :=
  match s with
  | [] => [[]]
  | c :: s' =>
      if N.eqb c sep then [] :: split sep s'
      else match split sep s' with
           | [] => [[c]]
           | l :: ls => (c :: l) :: ls
           end
  end.

(** [sep.join(parts)] *)
Fixpoint join (sep : str) (parts : list str) : str :=
  match parts with
  | [] => []
  | [p] => p
  | p :: ps => p ++ sep ++ join sep ps
  end.

(** [s.startswith(prefix)] *)
Fixpoint startswith (prefix s : str) : bool :=
  match prefix, s with
  | [], _ => true
  | _ :: _, [] => false
  | p :: prefix', c :: s' => N.eqb p c && startswith prefix' s'
  end.

(** [sub in s] *)
Fixpoint contains (sub s : str) : bool :=
  startswith sub s ||
  match s with
  | [] => false
  | _ :: s' => contains sub s'
  end.

(** [s.lower()].  ASCII capitals are mapped to their small letters.  The two
    code points outside ASCII whose lower case has an ASCII letter in it are
    mapped as Python maps them (U+0130 to [i] and U+0307, U+212A to [k]).
    Every other code point outside ASCII is lowered by Python to code points
    outside ASCII again; those are left as they are, which no search for an
    ASCII pattern can tell apart. *)
Definition lower_char (c : char) : str :=
  if ((65 <=? c) && (c <=? 90))%N then [(c + 32)%N]
  else if (c =? 304)%N then [105%N; 775%N]
  else if (c =? 8490)%N then [107%N]
  else [c].

Definition lower (s : str) : str := flat_map lower_char s.

(** [s.replace(old, '')] as a scan from the left: at an occurrence of [old]
    the next [len(old)] characters are skipped. *)
Fixpoint remove_scan (old s : str) (skip : nat) : str :=
  match s with
  | [] => []
  | c :: s' =>
      match skip with
      | S k => remove_scan old s' k
      | O => if startswith old s then remove_scan old s' (length old - 1)
             else c :: remove_scan old s' 0
      end
  end.

Definition remove_all (old s : str) : str :=
  match old with
  | [] => s
  | _ :: _ => remove_scan old s 0
  end.

(** [str(n)] for an integer. *)
Definition of_Z (n : Z) : str := lit (NilZero.string_of_int (Z.to_int n)).

End PyStr.
Import PyStr.

(** ** The chunking algorithm *)

Definition MAX_DISCORD_LENGTH : nat := 1990.

(** The state of the loop of [split_message]: [chunks] and [current_chunk]. *)
Definition chunker := (list str * str)%type.

(** [if current_chunk: chunks.append(current_chunk.strip())] *)
Definition flush (st : chunker) : list str :=
  let (chunks, current_chunk) := st in
  if truthy current_chunk then chunks ++ [strip current_chunk] else chunks.

(** One turn of the loop [for line in message.split('\n')]. *)
Definition split_step (st : chunker) (line : str) : chunker :=
  if MAX_DISCORD_LENGTH <? length (snd st) + length line + 1 then
    (flush st, line)
  else
    (fst st, if truthy (snd st) then snd st ++ newline :: line else line).

(** The loop and the last flush, on the lines of the message. *)
Definition chunk_lines (lines : list str) : list str :=
  flush (fold_left split_step lines ([], [])).

Definition split_message (message : str) : list str :=
  chunk_lines (split newline message).

(** ** Values, exceptions and the outside world *)

(** The exceptions the handlers tell apart, each with its [str(e)]. *)
Inductive exn_kind := TimeoutError | NotFound | OtherError.

Record exn := Exn { exn_kind_of : exn_kind; exn_str : str }.

Inductive result (A : Type) :=
| Ok (a : A)
| Raise (e : exn).
Arguments Ok {A} a.
Arguments Raise {A} e.

Set Warnings "-register-all".

(** A decoded JSON body, as [response.json()] returns it.  A float carries
    its [repr]; a dict is its items, looked up by the first match. *)
Inductive json :=
| JNull
| JBool (b : bool)
| JInt (n : Z)
| JFloat (repr : str)
| JStr (s : str)
| JList (items : list json)
| JDict (items : list (str * json)).

Definition type_name (v : json) : str :=
  match v with
  | JNull => lit "NoneType"
  | JBool _ => lit "bool"
  | JInt _ => lit "int"
  | JFloat _ => lit "float"
  | JStr _ => lit "str"
  | JList _ => lit "list"
  | JDict _ => lit "dict"
  end.

Definition AttributeError (v : json) (attr : str) : exn :=
  Exn OtherError
      (lit "'" ++ type_name v ++ lit "' object has no attribute '" ++ attr ++ lit "'").

Definition IndexError : exn := Exn OtherError (lit "list index out of range").

Fixpoint lookup (key : str) (items : list (str * json)) : option json :=
  match items with
  | [] => None
  | (k, v) :: items' => if PyStr.eqb k key then Some v else lookup key items'
  end.

(** [obj.get(key, default)]: only a dict has the method. *)
Definition get (obj : json) (key : str) (default : json) : result json :=
  match obj with
  | JDict items =>
      match lookup key items with
      | Some v => Ok v
      | None => Ok default
      end
  | _ => Raise (AttributeError obj (lit "get"))
  end.

(** An attachment as the code reads it.  The platform gives
    [content_type] as a string or as [None]. *)
Record attachment := Attachment {
  filename : str;
  content_type : option str;
}.

(** What [on_message] reads of the inbound message.  [mentioned] is the
    value of [self.user.mentioned_in(message)]. *)
Record message := Message {
  author : Z;
  content : str;
  attachments : list attachment;
  mentioned : bool;
}.

Definition bytes := list Byte.byte.

(** The body of a request to the formatting API. *)
Inductive payload :=
| JsonText (text : str) (authorization : str)
| FormFile (data : bytes) (file_name : str) (file_type : option str).

(** The response of the formatting API: its status and what [text()] and
    [json()] give. *)
Record response := Response {
  status : Z;
  text : result str;
  json_body : result json;
}.

(** The response to the download of an image URL. *)
Record download := Download {
  d_status : Z;
  d_content_type : option str;
  d_read : result bytes;
}.

(** What a dispatch does to the outside, in order. *)
Inductive event :=
| AddReaction (emoji : str)
| ClearReactions
| Reply (body : str)
| ReadAttachment (a : attachment)
| HttpGet (url : str)
| HttpPost (url : str) (p : payload).

Definition trace := list event.

(** The outside as one dispatch meets it: whether the platform call made
    as the [n]-th event of the trace fails, and what the reads and requests
    return (a time-out is [Raise] of a [TimeoutError]). *)
Record outside := Outside {
  platform_fault : nat -> option exn;
  attachment_read : attachment -> result bytes;
  http_get : str -> result download;
  http_post : str -> payload -> result response;
}.

(** The process environment read at import. *)
Record environ := Environ {
  env_API_URL : option str;
  env_OPENROUTER_API_KEY : option str;
}.

Definition hourglass : str := [9203%N].
Definition cross_mark : str := [10060%N].

(** ** The bot *)

Section Bot.

(** [repr] of a Python string (its quoting and escapes) is taken as given. *)
Variable repr_str : str -> str.
Variable env : environ.
Variable world : outside.

(** [repr(v)] of a decoded JSON value. *)
Fixpoint repr (v : json) : str :=
  match v with
  | JNull => lit "None"
  | JBool true => lit "True"
  | JBool false => lit "False"
  | JInt n => of_Z n
  | JFloat r => r
  | JStr s => repr_str s
  | JList items => lit "[" ++ join (lit ", ") (map repr items) ++ lit "]"
  | JDict items =>
      lit "{" ++
      join (lit ", ")
           (map (fun kv : str * json =>
                   let (k, x) := kv in repr_str k ++ lit ": " ++ repr x)
                items) ++
      lit "}"
  end.

(** [str(v)], as an f-string renders [v]. *)
Definition format_value (v : json) : str :=
  match v with
  | JStr s => s
  | _ => repr v
  end.

Definition API_URL : str :=
  match env_API_URL env with
  | Some url => url
  | None => lit "http://api:4545"
  end.

(** [f"Bearer {OPENROUTER_API_KEY}"] *)
Definition bearer : str :=
  lit "Bearer " ++
  match env_OPENROUTER_API_KEY env with
  | Some key => key
  | None => lit "None"
  end.

(** *** Computations: the calls made so far are threaded through, and a
    computation ends with a value or with a raised exception. *)

Definition M (A : Type) : Type := trace -> result A * trace.

Definition ret {A} (a : A) : M A := fun tr => (Ok a, tr).

Definition raise {A} (e : exn) : M A := fun tr => (Raise e, tr).

Definition bind {A B} (m : M A) (f : A -> M B) : M B :=
  fun tr =>
    match m tr with
    | (Ok a, tr') => f a tr'
    | (Raise e, tr') => (Raise e, tr')
    end.

Definition lift {A} (r : result A) : M A := fun tr => (r, tr).

(** [try: body / except ... as e: handler e]; a handler that does not take
    the exception raises it again. *)
Definition try_except {A} (body : M A) (handler : exn -> M A) : M A :=
  fun tr =>
    match body tr with
    | (Ok a, tr') => (Ok a, tr')
    | (Raise e, tr') => handler e tr'
    end.

Notation "x <- m ;; k" := (bind m (fun x => k))
  (at level 61, m at next level, right associativity).
Notation "m ;; k" := (bind m (fun _ => k))
  (at level 61, right associativity).

(** A call to the platform: it enters the trace, then fails or not. *)
Definition platform (ev : event) : M unit :=
  fun tr =>
    (match platform_fault world (length tr) with
     | Some e => Raise e
     | None => Ok tt
     end, tr ++ [ev]).

Definition add_reaction (emoji : str) : M unit := platform (AddReaction emoji).
Definition clear_reactions : M unit := platform ClearReactions.
Definition reply (body : str) : M unit := platform (Reply body).

Definition read (a : attachment) : M bytes :=
  fun tr => (attachment_read world a, tr ++ [ReadAttachment a]).

Definition session_get (url : str) : M download :=
  fun tr => (http_get world url, tr ++ [HttpGet url]).

Definition session_post (url : str) (p : payload) : M response :=
  fun tr => (http_post world url p, tr ++ [HttpPost url p]).

(** [except discord.NotFound: ... return] *)
Definition except_NotFound {A} (a : A) (e : exn) : M A :=
  match exn_kind_of e with
  | NotFound => ret a
  | _ => raise e
  end.

Fixpoint for_each {A} (xs : list A) (body : A -> M unit) : M unit :=
  match xs with
  | [] => ret tt
  | x :: xs' => body x ;; for_each xs' body
  end.

(** [split_message(formatted_dates)] on whatever the body held: only a
    string has [split]. *)
Definition split_message_of (v : json) : M (list str) :=
  match v with
  | JStr s => ret (split_message s)
  | _ => raise (AttributeError v (lit "split"))
  end.

(** [chunks[0]] *)
Definition first_chunk (chunks : list str) : M str :=
  match chunks with
  | c :: _ => ret c
  | [] => raise IndexError
  end.

Definition nl : str := [newline].

Definition first_reply (chunk : str) : str :=
  lit "```" ++ nl ++ chunk ++ nl ++ lit "```" ++ nl ++ nl ++
  lit "Please double-check all info as Better Lover can make mistakes.".

Definition follow_up (chunk : str) : str :=
  lit "```" ++ nl ++ lit "(continued...)" ++ nl ++ chunk ++ nl ++ lit "```".

(** The replies with the chunks: the first one, and the others as
    follow-ups unless the first reply found the message gone. *)
Definition send_chunks (chunks : list str) : M unit :=
  gone <- try_except
            (c <- first_chunk chunks ;; reply (first_reply c) ;; ret false)
            (except_NotFound true) ;;
  if gone then ret tt
  else if 1 <? length chunks then
    try_except
      (for_each (tl chunks) (fun chunk => reply (follow_up chunk)))
      (except_NotFound tt)
  else ret tt.

(** What each of the three pipelines does with the response of the
    formatting API (the same lines in each of them). *)
Definition relay (response : response) : M unit :=
  if negb (status response =? 200)%Z then
    error_text <- lift (text response) ;;
    error_detail <-
      try_except
        (error_json <- lift (json_body response) ;;
         lift (get error_json (lit "detail") (JStr (lit "Unknown error"))))
        (fun _ => ret (JStr error_text)) ;;
    clear_reactions ;;
    add_reaction cross_mark ;;
    reply (lit "Error: " ++ format_value error_detail)
  else
    result <- lift (json_body response) ;;
    formatted_dates <-
      lift (get result (lit "formatted_dates") (JStr (lit "Error: No dates found"))) ;;
    chunks <- split_message_of formatted_dates ;;
    send_chunks chunks.

(** The two handlers that close each pipeline. *)
Definition failed (e : exn) : M unit :=
  match exn_kind_of e with
  | TimeoutError =>
      try_except
        (clear_reactions ;;
         add_reaction cross_mark ;;
         reply (lit "Error: Request timed out. Please try again."))
        (except_NotFound tt)
  | _ =>
      try_except
        (clear_reactions ;;
         add_reaction cross_mark ;;
         reply (lit "Error: " ++ exn_str e))
        (except_NotFound tt)
  end.

Definition process_text (text : str) : M unit :=
  try_except
    (add_reaction hourglass ;;
     response <- session_post (API_URL ++ lit "/format/text")
                              (JsonText text bearer) ;;
     relay response)
    failed.

Definition process_image (a : attachment) : M unit :=
  try_except
    (add_reaction hourglass ;;
     image_data <- read a ;;
     response <- session_post (API_URL ++ lit "/format/image")
                              (FormFile image_data (filename a) (content_type a)) ;;
     relay response)
    failed.

Definition process_image_url (url : str) : M unit :=
  try_except
    (add_reaction hourglass ;;
     response <- session_get url ;;
     if negb (d_status response =? 200)%Z then
       raise (Exn OtherError
                  (lit "Failed to download image: HTTP " ++ of_Z (d_status response)))
     else
       let content_type :=
         match d_content_type response with
         | Some t => t
         | None => lit "image/jpeg"
         end in
       let filename := last (split 47%N url) [] in
       image_data <- lift (d_read response) ;;
       api_response <- session_post (API_URL ++ lit "/format/image")
                                    (FormFile image_data filename (Some content_type)) ;;
       relay api_response)
    failed.

(** *** The dispatcher *)

Inductive kind :=
| ImageAttachment (a : attachment)
| ImageUrl (url : str)
| Text (text : str).

Definition image_extensions : list str :=
  [lit ".jpg"; lit ".jpeg"; lit ".png"; lit ".gif"; lit ".webp"].

(** [message.attachments and
     message.attachments[0].content_type.startswith('image/')]: the first
    attachment when it declares an image type; a content type that is
    [None] has no [startswith]. *)
Definition first_image (atts : list attachment) : result (option attachment) :=
  match atts with
  | a :: _ =>
      match content_type a with
      | Some t => Ok (if startswith (lit "image/") t then Some a else None)
      | None => Raise (AttributeError JNull (lit "startswith"))
      end
  | [] => Ok None
  end.

(** [content.startswith(('http://', 'https://')) and
     any(ext in content.lower() for ext in [...])] *)
Definition is_image_url (content : str) : bool :=
  (startswith (lit "http://") content || startswith (lit "https://") content) &&
  existsb (fun ext => contains ext (lower content)) image_extensions.

(** The test of the [if], [elif] and [else] of [on_message]: the kind of
    the message, or the exception that the first test raises. *)
Definition classify (atts : list attachment) (content : str) : result kind :=
  match first_image atts with
  | Raise e => Raise e
  | Ok (Some a) => Ok (ImageAttachment a)
  | Ok None => Ok (if is_image_url content then ImageUrl content else Text content)
  end.

Definition run (k : kind) : M unit :=
  match k with
  | ImageAttachment a => process_image a
  | ImageUrl url => process_image_url url
  | Text text => process_text text
  end.

(** The message text without the two forms of the mention, stripped. *)
Definition stripped_content (self_id : Z) (message : message) : str :=
  strip
    (remove_all (lit "<@!" ++ of_Z self_id ++ lit ">")
       (remove_all (lit "<@" ++ of_Z self_id ++ lit ">") (content message))).

Definition on_message (self_id : Z) (message : message) : M unit :=
  if negb (mentioned message) then ret tt
  else if (author message =? self_id)%Z then ret tt
  else
    let content := stripped_content self_id message in
    if negb (truthy content) && negb (match attachments message with
                                        | [] => false
                                        | _ :: _ => true
                                        end)
    then reply (lit "Please provide some tour dates, an image, or an image URL.")
    else
      add_reaction hourglass ;;
      try_except
        (k <- lift (classify (attachments message) content) ;; run k)
        (fun e =>
           clear_reactions ;;
           add_reaction cross_mark ;;
           reply (lit "Error: " ++ exn_str e)).

End Bot.

(** ** Notions of the statements *)

(** A string of white space only. *)
Definition blank (s : str) : bool := forallb is_space s.

(** The content of some lines: those that are not blank, stripped. *)
Definition content_of (lines : list str) : list str :=
  filter truthy (map strip lines).

Definition lines_content (s : str) : list str :=
  content_of (split newline s).

(** A chunk of the message with the lines [lines]: within the limit, or one
    line above the limit, stripped. *)
Definition within (lines : list str) (c : str) : Prop :=
  length c <= MAX_DISCORD_LENGTH \/
  exists line, In line lines /\ MAX_DISCORD_LENGTH < length line /\ c = strip line.

(** The invariant of the loop on [current_chunk] and on the whole state. *)
Definition buffer_ok (lines : list str) (cur : str) : Prop :=
  length cur <= MAX_DISCORD_LENGTH \/
  (In cur lines /\ MAX_DISCORD_LENGTH < length cur).

Definition chunker_ok (lines : list str) (st : chunker) : Prop :=
  Forall (within lines) (fst st) /\ buffer_ok lines (snd st).

Definition chunker_content (st : chunker) : list str :=
  flat_map lines_content (fst st) ++ lines_content (snd st).

Definition begins_with (prefix s : str) : Prop := exists r, s = prefix ++ r.

Definition occurs_in (sub s : str) : Prop := exists a b, s = a ++ sub ++ b.

(** The first attachment declares an image type. *)
Definition image_first (atts : list attachment) : Prop :=
  exists a rest t,
    atts = a :: rest /\ content_type a = Some t /\ begins_with (lit "image/") t.

(** The first attachment, when there is one, declares a content type. *)
Definition typed_first (atts : list attachment) : Prop :=
  forall a rest, atts = a :: rest -> content_type a <> None.

(** The text is a link with an image extension somewhere in it, whatever
    the case of its letters. *)
Definition image_link (content : str) : Prop :=
  (begins_with (lit "http://") content \/ begins_with (lit "https://") content) /\
  exists ext, In ext image_extensions /\ occurs_in ext (lower content).

(** [s.endswith(suffix)] *)
Definition endswith (suffix s : str) : bool := startswith (rev suffix) (rev s).

(** The first attachment when it declares a content type that begins with
    [image/]. *)
Definition declared_image (atts : list attachment) : option attachment :=
  match atts with
  | a :: _ =>
      match content_type a with
      | Some t => if startswith (lit "image/") t then Some a else None
      | None => None
      end
  | [] => None
  end.

(** The classification as the specification words it: a link that ends in
    one of the extensions. *)
Definition classify_by_suffix (atts : list attachment) (content : str) : kind :=
  match declared_image atts with
  | Some a => ImageAttachment a
  | None =>
      if (startswith (lit "http://") content || startswith (lit "https://") content) &&
         existsb (fun ext => endswith ext (lower content)) image_extensions
      then ImageUrl content
      else Text content
  end.

(** The platform takes every call. *)
Definition reliable (world : outside) : Prop :=
  forall n, platform_fault world n = None.

(** The detail that a response other than 200 is reported with. *)
Definition error_detail (r : response) (error_text : str) : json :=
  match json_body r with
  | Ok (JDict items) =>
      match lookup (lit "detail") items with
      | Some v => v
      | None => JStr (lit "Unknown error")
      end
  | _ => JStr error_text
  end.

(** What a pipeline makes of the end of [relay]: a raised exception goes to
    the handlers. *)
Definition settle (world : outside) (res : result unit * trace)
  : result unit * trace :=
  match res with
  | (Ok a, tr) => (Ok a, tr)
  | (Raise e, tr) => failed world e tr
  end.

Definition text_url (env : environ) : str := API_URL env ++ lit "/format/text".
Definition image_url (env : environ) : str := API_URL env ++ lit "/format/image".

(** The request that the image-URL pipeline makes of a download. *)
Definition forwarded (url : str) (d : download) (data : bytes) : payload :=
  FormFile data (last (split 47%N url) [])
           (Some (match d_content_type d with
                  | Some t => t
                  | None => lit "image/jpeg"
                  end)).

Definition no_dates : str := lit "Error: No dates found".

(** *** Sample inputs *)

(** A line of 1991 letters, one more than the limit. *)
Definition long_line : str := repeat 97%N 1991.

Definition long_message : str :=
  lit "May 5" ++ newline :: long_line ++ newline :: lit "May 6".

Definition poster_link : str := lit "https://example.com/poster.png?width=640".

Definition sample_repr (s : str) : str := lit "'" ++ s ++ lit "'".

Definition sample_env : environ := Environ None None.

(** A world where the platform takes every call and the formatting API
    answers every request with [r]. *)
Definition answering (r : response) : outside :=
  Outside (fun _ => None)
          (fun _ => Ok [])
          (fun _ => Raise (Exn TimeoutError []))
          (fun _ _ => Ok r).

Definition bad_input_body : str :=
  lit "{" ++ [34%N] ++ lit "detail" ++ [34%N] ++ lit ": " ++
  [34%N] ++ lit "bad input" ++ [34%N] ++ lit "}".

Definition bad_input : response :=
  Response 500 (Ok bad_input_body)
           (Ok (JDict [(lit "detail", JStr (lit "bad input"))])).

Definition no_field : response := Response 200 (Ok (lit "{}")) (Ok (JDict [])).

Definition empty_dates : response :=
  Response 200 (Ok (lit "{}")) (Ok (JDict [(lit "formatted_dates", JStr [])])).

Definition tour_request : payload :=
  JsonText (lit "May 5 Berlin") (lit "Bearer None").

Definition overheard : message := Message 7 (lit "see you in Berlin") [] false.

Definition bare_mention : message := Message 7 (lit "<@42>  ") [] true.

(** *** Notions of the further properties *)

(** A string that begins and ends with a character that is not white
    space. *)
Definition tidy (s : str) : bool :=
  match s with
  | [] => false
  | c :: _ => negb (is_space c) && negb (is_space (last s c))
  end.

(** A string of newlines only (the empty string is one). *)
Definition all_newlines (s : str) : bool := forallb (fun c => N.eqb c newline) s.

(** The lines [ls] put after [pre], each behind a newline. *)
Definition extend (pre : str) (ls : list str) : str :=
  fold_left (fun acc l => acc ++ newline :: l) ls pre.

(** The number of chunks that a state of the loop holds, the open one
    counted. *)
Definition held (st : chunker) : nat :=
  length (fst st) + (if truthy (snd st) then 1 else 0).

Definition two_dates : str := lit "May 5 Berlin" ++ newline :: lit "May 6 Paris".

(** The replies that carry some chunks: the first with the disclaimer, the
    others as follow-ups. *)
Definition replies_of (chunks : list str) : trace :=
  match chunks with
  | [] => []
  | c :: rest => Reply (first_reply c) :: map (fun ch => Reply (follow_up ch)) rest
  end.

(** The text that the handlers of a pipeline reply with for an exception. *)
Definition failure_text (e : exn) : str :=
  match exn_kind_of e with
  | TimeoutError => lit "Error: Request timed out. Please try again."
  | _ => lit "Error: " ++ exn_str e
  end.

(** The calls that report a failure. *)
Definition report (body : str) : trace :=
  [ClearReactions; AddReaction cross_mark; Reply body].

Definition is_post (ev : event) : bool :=
  match ev with
  | HttpPost _ _ => true
  | _ => false
  end.

Definition is_get (ev : event) : bool :=
  match ev with
  | HttpGet _ => true
  | _ => false
  end.

(** How many of the events satisfy [p]. *)
Definition count (p : event -> bool) (evs : trace) : nat :=
  length (filter p evs).

(** A computation that only adds to the trace, and adds at most [n] events
    that satisfy [p]. *)
Definition adds_at_most {A} (p : event -> bool) (n : nat) (m : trace -> result A * trace)
  : Prop :=
  forall tr, exists evs, snd (m tr) = tr ++ evs /\ count p evs <= n.

(** The body of a reply, for the events that are replies. *)
Definition reply_body (ev : event) : option str :=
  match ev with
  | Reply body => Some body
  | _ => None
  end.

(** A world where the reply that would be the event number [k] of the
    trace finds the message gone, and every other platform call is taken. *)
Definition gone_at (k : nat) (r : response) : outside :=
  Outside (fun n => if Nat.eqb n k
                    then Some (Exn NotFound (lit "404 Not Found"))
                    else None)
          (fun _ => Ok [])
          (fun _ => Raise (Exn TimeoutError []))
          (fun _ _ => Ok r).

(** A world where the formatting API cannot be reached: every request to
    it raises [e]. *)
Definition unreachable (e : exn) : outside :=
  Outside (fun _ => None)
          (fun _ => Raise e)
          (fun _ => Raise e)
          (fun _ _ => Raise e).

(** A run that returns, having added to [tr] some events of which the last
    is a reply. *)
Definition ends_in_reply (res : result unit * trace) (tr : trace) : Prop :=
  exists evs body, res = (Ok tt, tr ++ evs ++ [Reply body]).

(** A character of a printed integer: the sign or a digit. *)
Definition decimal_char (c : char) : bool :=
  ((c =? 45) || (48 <=? c) && (c <=? 57))%N.

(** The two forms of the mention of the user [id]. *)
Definition plain_mention (id : Z) : str := lit "<@" ++ of_Z id ++ lit ">".
Definition nick_mention (id : Z) : str := lit "<@!" ++ of_Z id ++ lit ">".

Definition ask_for_input : str :=
  lit "Please provide some tour dates, an image, or an image URL.".

(** The content type that the image-URL pipeline forwards. *)
Definition forwarded_type (d : download) : str :=
  match d_content_type d with
  | Some t => t
  | None => lit "image/jpeg"
  end.

(** What the image-URL pipeline does once the image is downloaded. *)
Definition forward (repr_str : str -> str) (world : outside) (url : str) (p : payload)
  : M unit :=
  try_except
    (fun tr => match http_post world url p with
               | Ok r => relay repr_str world r tr
               | Raise e => (Raise e, tr)
               end)
    (failed world).

(** *** More sample inputs *)

(** A world where the download gives [d] and the formatting API answers
    [r]. *)
Definition fetching (d : download) (r : response) : outside :=
  Outside (fun _ => None)
          (fun _ => Ok [])
          (fun _ => Ok d)
          (fun _ _ => Ok r).

Definition dates_answer (s : str) : response :=
  Response 200 (Ok (lit "{}")) (Ok (JDict [(lit "formatted_dates", JStr s)])).

Definition list_answer : response := Response 200 (Ok (lit "[]")) (Ok (JList [])).

Definition timed_out : exn := Exn TimeoutError [].

Definition missing_page : download := Download 404 None (Ok []).

Definition poster : download := Download 200 None (Ok []).

Definition poster_attachment : attachment :=
  Attachment (lit "poster.png") (Some (lit "image/png")).

Definition tour_message : message := Message 7 (lit "<@42> May 5 Berlin") [] true.

(** A world where the platform call that would be the event number [k] of
    the trace is refused, every other one is taken, and every request to
    the formatting API raises [e]. *)
Definition refused_at (k : nat) (e : exn) : outside :=
  Outside (fun n => if Nat.eqb n k
                    then Some (Exn OtherError (lit "403 Forbidden"))
                    else None)
          (fun _ => Ok [])
          (fun _ => Raise e)
          (fun _ _ => Raise e).

(** The handler of [on_message]. *)
Definition last_resort (world : outside) (e : exn) : M unit :=
  bind (clear_reactions world)
       (fun _ => bind (add_reaction world cross_mark)
                   (fun _ => reply world (lit "Error: " ++ exn_str e))).

(** What [on_message] does with a message that it takes up and for which
    it runs [pipeline]: the working marker, the pipeline, and the handler
    for what the pipeline raises. *)
Definition taken_up (world : outside) (pipeline : M unit) : M unit :=
  bind (add_reaction world hourglass)
       (fun _ => try_except pipeline (last_resort world)).

Definition poster_message : message :=
  Message 7 (lit "<@42> https://example.com/other") [poster_attachment] true.

Definition link_message : message :=
  Message 7 (lit "<@42> https://example.com/poster.png?width=640") [] true.

(** A link with its extension in capitals. *)
Definition capital_link : str := lit "https://example.com/POSTER.PNG".

Definition capital_message : message :=
  Message 7 (lit "<@42> https://example.com/POSTER.PNG") [] true.

(** An attachment for which the platform gives no content type. *)
Definition untyped_attachment : attachment := Attachment (lit "notes") None.

Definition untyped_message : message :=
  Message 7 (lit "<@42> May 5 Berlin") [untyped_attachment] true.

(** A world where the platform call that would be the event number [k] of
    the trace finds the message gone, every other one is taken, and every
    request to the formatting API raises [e]. *)
Definition lost_at (k : nat) (e : exn) : outside :=
  Outside (fun n => if Nat.eqb n k
                    then Some (Exn NotFound (lit "404 Not Found"))
                    else None)
          (fun _ => Ok [])
          (fun _ => Raise e)
          (fun _ _ => Raise e).

(** ** White space and [strip] *)

Section StripFacts.

Lemma lstrip_length (s : str) : length (lstrip s) <= length s.
Proof.
  induction s as [|c s IH]; simpl; [lia|].
  destruct (is_space c); simpl; lia.
Qed.

Lemma strip_length (s : str) : length (strip s) <= length s.
Proof.
  unfold strip, rstrip.
  etransitivity; [apply lstrip_length|].
  rewrite length_rev.
  etransitivity; [apply lstrip_length|].
  now rewrite length_rev.
Qed.

Lemma lstrip_blank (w : str) : blank w = true -> lstrip w = [].
Proof.
  induction w as [|c w IH]; simpl; [reflexivity|].
  intros H. apply andb_prop in H as [Hc Hw]. now rewrite Hc; apply IH.
Qed.

Lemma lstrip_app (a b : str) :
  lstrip (a ++ b) = match lstrip a with
                    | [] => lstrip b
                    | _ :: _ => lstrip a ++ b
                    end.
Proof.
  induction a as [|c a IH]; simpl.
  - now destruct (lstrip b).
  - destruct (is_space c); [exact IH | reflexivity].
Qed.

Lemma blank_rev (w : str) : blank w = true -> blank (rev w) = true.
Proof.
  unfold blank. rewrite !forallb_forall.
  intros H x Hx. apply H. now apply in_rev.
Qed.

Lemma blank_app (a b : str) : blank (a ++ b) = blank a && blank b.
Proof. apply forallb_app. Qed.

Lemma strip_blank (w : str) : blank w = true -> strip w = [].
Proof.
  intros H. unfold strip, rstrip.
  now rewrite (lstrip_blank _ (blank_rev _ H)).
Qed.

Lemma strip_app_blank_l (w s : str) :
  blank w = true -> strip (w ++ s) = strip s.
Proof.
  intros H. unfold strip, rstrip.
  rewrite rev_app_distr, lstrip_app.
  destruct (lstrip (rev s)) as [|x xs] eqn:E.
  - now rewrite (lstrip_blank _ (blank_rev _ H)).
  - rewrite rev_app_distr, rev_involutive, lstrip_app.
    now rewrite (lstrip_blank _ H).
Qed.

Lemma strip_app_blank_r (s w : str) :
  blank w = true -> strip (s ++ w) = strip s.
Proof.
  intros H. unfold strip, rstrip.
  rewrite rev_app_distr, lstrip_app.
  now rewrite (lstrip_blank _ (blank_rev _ H)).
Qed.

(** What [lstrip] and [rstrip] take away is white space. *)
Lemma lstrip_spec (s : str) : exists w, blank w = true /\ s = w ++ lstrip s.
Proof.
  induction s as [|c s (w & Hw & E)]; simpl.
  - now exists [].
  - destruct (is_space c) eqn:Hc.
    + exists (c :: w). simpl. rewrite Hc, Hw. split; [reflexivity|].
      now rewrite <- E.
    + now exists [].
Qed.

Lemma rstrip_spec (s : str) : exists w, blank w = true /\ s = rstrip s ++ w.
Proof.
  destruct (lstrip_spec (rev s)) as (w & Hw & E).
  exists (rev w). split; [now apply blank_rev|].
  unfold rstrip. rewrite <- rev_app_distr, <- E. now rewrite rev_involutive.
Qed.

End StripFacts.

(** ** [split] and [join] *)

Section SplitFacts.

Variable sep : char.

Lemma split_not_nil (s : str) : split sep s <> [].
Proof.
  destruct s as [|c s]; simpl; [discriminate|].
  destruct (N.eqb c sep); [discriminate|].
  destruct (split sep s); discriminate.
Qed.

Lemma split_cons (c : char) (s : str) :
  N.eqb c sep = false ->
  split sep (c :: s) = (c :: hd [] (split sep s)) :: tl (split sep s).
Proof.
  intros H. simpl. rewrite H.
  destruct (split sep s) eqn:E; [now apply split_not_nil in E | reflexivity].
Qed.

(** The lines of [s ++ t]: the last line of [s] runs on into the first
    line of [t]. *)
Lemma split_app (s t : str) :
  split sep (s ++ t) =
  removelast (split sep s) ++
  (last (split sep s) [] ++ hd [] (split sep t)) :: tl (split sep t).
Proof.
  induction s as [|c s IH].
  - simpl. destruct (split sep t) eqn:E; [now apply split_not_nil in E | reflexivity].
  - destruct (N.eqb c sep) eqn:Hc.
    + simpl. rewrite Hc, IH.
      destruct (split sep s) eqn:E; [now apply split_not_nil in E | reflexivity].
    + change ((c :: s) ++ t) with (c :: (s ++ t)).
      rewrite !split_cons by assumption. rewrite IH.
      destruct (split sep s) as [|l [|l2 ls]] eqn:E;
        [now apply split_not_nil in E | reflexivity | reflexivity].
Qed.

Lemma split_app_sep (s t : str) :
  split sep (s ++ sep :: t) = split sep s ++ split sep t.
Proof.
  rewrite split_app. simpl. rewrite N.eqb_refl. simpl.
  rewrite app_nil_r.
  assert (H := split_not_nil s).
  rewrite (app_removelast_last [] H) at 3.
  now rewrite <- app_assoc.
Qed.

Lemma join_split (s : str) : join [sep] (split sep s) = s.
Proof.
  induction s as [|c s IH]; [reflexivity|].
  destruct (N.eqb c sep) eqn:Hc.
  - simpl. rewrite Hc. apply N.eqb_eq in Hc. subst c.
    assert (H := split_not_nil s).
    destruct (split sep s) as [|l ls] eqn:E; [contradiction|].
    change (join [sep] ([] :: l :: ls)) with (sep :: join [sep] (l :: ls)).
    now rewrite IH.
  - rewrite split_cons by assumption.
    assert (H := split_not_nil s).
    destruct (split sep s) as [|l [|l2 ls]] eqn:E; [contradiction| |].
    + simpl in *. now rewrite IH.
    + change (join [sep] ((c :: hd [] (l :: l2 :: ls)) :: tl (l :: l2 :: ls)))
        with (c :: join [sep] (l :: l2 :: ls)).
      now rewrite IH.
Qed.

Lemma split_blank (w : str) :
  blank w = true -> forallb blank (split sep w) = true.
Proof.
  induction w as [|c w IH]; [reflexivity|].
  intros H. simpl in H. apply andb_prop in H as [Hc Hw].
  specialize (IH Hw).
  destruct (N.eqb c sep) eqn:E.
  - simpl. now rewrite E.
  - rewrite split_cons by assumption.
    assert (N := split_not_nil w).
    destruct (split sep w); [contradiction|].
    simpl in *. apply andb_prop in IH as [-> ->]. now rewrite Hc.
Qed.

End SplitFacts.

(** ** The content of a text: its lines that are not blank, stripped *)

Lemma content_of_app (a b : list str) :
  content_of (a ++ b) = content_of a ++ content_of b.
Proof. unfold content_of. now rewrite map_app, filter_app. Qed.

Lemma content_of_blank (ls : list str) :
  forallb blank ls = true -> content_of ls = [].
Proof.
  induction ls as [|l ls IH]; [reflexivity|].
  simpl. intros H. apply andb_prop in H as [Hl Hls].
  unfold content_of in *. simpl. rewrite (strip_blank _ Hl). simpl. now apply IH.
Qed.

Lemma forallb_removelast {A} (f : A -> bool) (l : list A) :
  forallb f l = true -> forallb f (removelast l) = true.
Proof.
  induction l as [|x [|y l] IH]; simpl in *; try reflexivity.
  intros H. apply andb_prop in H as [-> H]. now apply IH.
Qed.

Lemma forallb_last (f : str -> bool) (l : list str) :
  forallb f l = true -> f [] = true -> f (last l []) = true.
Proof.
  intros H H0. induction l as [|x [|y l] IH]; simpl in *; try assumption.
  - now apply andb_prop in H as [-> _].
  - apply andb_prop in H as [_ H]. now apply IH.
Qed.

Lemma lines_content_blank_l (w s : str) :
  blank w = true -> lines_content (w ++ s) = lines_content s.
Proof.
  intros H. unfold lines_content. rewrite split_app.
  assert (Hw := split_blank newline w H).
  rewrite content_of_app.
  rewrite (content_of_blank _ (forallb_removelast _ _ Hw)). simpl.
  assert (N := split_not_nil newline s).
  destruct (split newline s) as [|l ls]; [contradiction|]. simpl.
  unfold content_of. simpl.
  now rewrite strip_app_blank_l by (now apply forallb_last).
Qed.

Lemma lines_content_blank_r (s w : str) :
  blank w = true -> lines_content (s ++ w) = lines_content s.
Proof.
  intros H. unfold lines_content. rewrite split_app.
  assert (Hw := split_blank newline w H).
  assert (N := split_not_nil newline w).
  destruct (split newline w) as [|l ls]; [contradiction|]. simpl in *.
  apply andb_prop in Hw as [Hl Hls].
  assert (E := app_removelast_last [] (split_not_nil newline s)).
  remember (split newline s) as X eqn:EX. clear EX.
  rewrite E at 3.
  rewrite !content_of_app. f_equal.
  change ((last X [] ++ l) :: ls) with ([last X [] ++ l] ++ ls).
  rewrite content_of_app, (content_of_blank _ Hls), app_nil_r.
  unfold content_of. simpl.
  now rewrite strip_app_blank_r by assumption.
Qed.

(** Stripping a text changes none of its content. *)
Lemma lines_content_strip (s : str) : lines_content (strip s) = lines_content s.
Proof.
  destruct (rstrip_spec s) as (w2 & H2 & E2).
  destruct (lstrip_spec (rstrip s)) as (w1 & H1 & E1).
  fold (strip s) in E1.
  rewrite E2 at 2. rewrite lines_content_blank_r by assumption.
  rewrite E1. now rewrite lines_content_blank_l.
Qed.

Lemma lines_content_sep (a b : str) :
  lines_content (a ++ newline :: b) = lines_content a ++ lines_content b.
Proof.
  unfold lines_content. now rewrite split_app_sep, content_of_app.
Qed.

Lemma lines_content_join (chunks : list str) :
  lines_content (join [newline] chunks) = flat_map lines_content chunks.
Proof.
  induction chunks as [|p [|q r] IH]; [reflexivity | |].
  - simpl. now rewrite app_nil_r.
  - change (join [newline] (p :: q :: r))
      with (p ++ newline :: join [newline] (q :: r)).
    rewrite lines_content_sep, IH. reflexivity.
Qed.

Lemma lines_content_lines (s : str) :
  flat_map lines_content (split newline s) = lines_content s.
Proof.
  rewrite <- lines_content_join. now rewrite join_split.
Qed.

(** ** The loop of [split_message] *)

Lemma flush_prefix (p chunks : list str) (cur : str) :
  flush (p ++ chunks, cur) = p ++ flush (chunks, cur).
Proof.
  unfold flush. destruct (truthy cur); [now rewrite app_assoc | reflexivity].
Qed.

Lemma split_step_prefix (p : list str) (st : chunker) (line : str) :
  split_step (p ++ fst st, snd st) line =
  (p ++ fst (split_step st line), snd (split_step st line)).
Proof.
  destruct st as [chunks cur]. unfold split_step. cbn [fst snd].
  destruct (MAX_DISCORD_LENGTH <? length cur + length line + 1).
  - cbn [fst snd]. now rewrite flush_prefix.
  - reflexivity.
Qed.

(** The chunks already closed take no part in what follows. *)
Lemma fold_split_step_prefix (lines : list str) (p : list str) (st : chunker) :
  fold_left split_step lines (p ++ fst st, snd st) =
  (p ++ fst (fold_left split_step lines st),
   snd (fold_left split_step lines st)).
Proof.
  revert st. induction lines as [|l lines IH]; intros st; [reflexivity|].
  cbn [fold_left]. rewrite split_step_prefix. apply IH.
Qed.

Lemma chunk_lines_from (lines : list str) (p : list str) (cur : str) :
  flush (fold_left split_step lines (p, cur)) =
  p ++ flush (fold_left split_step lines ([], cur)).
Proof.
  assert (H := fold_split_step_prefix lines p ([], cur)).
  cbn [fst snd] in H. rewrite app_nil_r in H. rewrite H.
  rewrite flush_prefix. now destruct (fold_left split_step lines ([], cur)).
Qed.

Lemma split_step_first (line : str) : split_step ([], []) line = ([], line).
Proof.
  unfold split_step. cbn [fst snd].
  now destruct (MAX_DISCORD_LENGTH <? length (@nil char) + length line + 1).
Qed.

Lemma truthy_length (s : str) : 0 < length s -> truthy s = true.
Proof. destruct s; simpl; [lia | reflexivity]. Qed.

(** A line longer than the limit closes the chunk before it and is closed
    by whatever comes after it. *)
Lemma chunk_lines_long_line (pre post : list str) (line : str) :
  MAX_DISCORD_LENGTH < length line ->
  chunk_lines (pre ++ line :: post) =
  chunk_lines pre ++ strip line :: chunk_lines post.
Proof.
  intros Hlong. unfold chunk_lines.
  rewrite fold_left_app. cbn [fold_left].
  set (st := fold_left split_step pre ([], [])).
  assert (E1 : split_step st line = (flush st, line)).
  { unfold split_step.
    destruct (Nat.ltb_spec MAX_DISCORD_LENGTH (length (snd st) + length line + 1));
      [reflexivity | lia]. }
  rewrite E1.
  destruct post as [|l post].
  - cbn [fold_left]. unfold flush at 1.
    rewrite truthy_length by lia. unfold flush at 3. simpl. reflexivity.
  - cbn [fold_left].
    assert (E2 : split_step (flush st, line) l = (flush st ++ [strip line], l)).
    { unfold split_step. cbn [fst snd].
      destruct (Nat.ltb_spec MAX_DISCORD_LENGTH (length line + length l + 1));
        [|lia].
      unfold flush at 1. now rewrite truthy_length by lia. }
    rewrite E2, split_step_first, chunk_lines_from.
    now rewrite <- app_assoc.
Qed.

(** *** Every chunk is within the limit, or is one long line *)

Section Bound.

Variable lines : list str.

Lemma within_strip (cur : str) : buffer_ok lines cur -> within lines (strip cur).
Proof.
  intros [H | [Hin Hlong]].
  - left. pose proof (strip_length cur). lia.
  - right. now exists cur.
Qed.

Lemma flush_ok (st : chunker) : chunker_ok lines st -> Forall (within lines) (flush st).
Proof.
  destruct st as [chunks cur]. intros [Hc Hb]. cbn [fst snd] in *.
  unfold flush. destruct (truthy cur); [|assumption].
  apply Forall_app. split; [assumption|].
  constructor; [now apply within_strip | constructor].
Qed.

Lemma split_step_ok (st : chunker) (line : str) :
  In line lines -> chunker_ok lines st -> chunker_ok lines (split_step st line).
Proof.
  intros Hin Hst. unfold split_step.
  destruct (Nat.ltb_spec MAX_DISCORD_LENGTH (length (snd st) + length line + 1))
    as [Hlt | Hle].
  - split; cbn [fst snd]; [now apply flush_ok|].
    unfold buffer_ok.
    destruct (Nat.le_gt_cases (length line) MAX_DISCORD_LENGTH); [now left | now right].
  - split; cbn [fst snd]; [apply Hst|].
    left. destruct (truthy (snd st)); [|lia].
    rewrite length_app. simpl. lia.
Qed.

Lemma fold_split_step_ok (ls : list str) (st : chunker) :
  incl ls lines ->
  chunker_ok lines st -> chunker_ok lines (fold_left split_step ls st).
Proof.
  revert st. induction ls as [|l ls IH]; intros st Hincl Hst; [assumption|].
  cbn [fold_left]. apply IH.
  - intros x Hx. apply Hincl. now right.
  - apply split_step_ok; [apply Hincl; now left | assumption].
Qed.

Lemma chunk_lines_within : Forall (within lines) (chunk_lines lines).
Proof.
  apply flush_ok, fold_split_step_ok; [apply incl_refl|].
  split; [constructor | left; simpl; lia].
Qed.

End Bound.

(** *** The chunks keep the content of the lines, in their order *)

Lemma flush_content (st : chunker) :
  flat_map lines_content (flush st) = chunker_content st.
Proof.
  destruct st as [chunks cur]. unfold flush, chunker_content. cbn [fst snd].
  destruct cur as [|c cur]; cbn [truthy].
  - now rewrite app_nil_r.
  - rewrite flat_map_app. simpl. now rewrite app_nil_r, lines_content_strip.
Qed.

Lemma split_step_content (st : chunker) (line : str) :
  chunker_content (split_step st line) = chunker_content st ++ lines_content line.
Proof.
  unfold split_step.
  destruct (MAX_DISCORD_LENGTH <? length (snd st) + length line + 1).
  - unfold chunker_content at 1. cbn [fst snd]. now rewrite flush_content.
  - unfold chunker_content. cbn [fst snd]. rewrite <- app_assoc. f_equal.
    destruct (snd st) as [|c cur]; cbn [truthy]; [reflexivity|].
    apply lines_content_sep.
Qed.

Lemma fold_split_step_content (lines : list str) (st : chunker) :
  chunker_content (fold_left split_step lines st) =
  chunker_content st ++ flat_map lines_content lines.
Proof.
  revert st. induction lines as [|l lines IH]; intros st.
  - simpl. now rewrite app_nil_r.
  - cbn [fold_left flat_map]. rewrite IH, split_step_content.
    now rewrite <- app_assoc.
Qed.

Lemma chunk_lines_content (lines : list str) :
  flat_map lines_content (chunk_lines lines) = flat_map lines_content lines.
Proof.
  unfold chunk_lines. now rewrite flush_content, fold_split_step_content.
Qed.

(** ** One dispatch, step by step *)

Section Steps.

Variable repr_str : str -> str.
Variable env : environ.
Variable world : outside.

Lemma bind_ok {A B} (m : M A) (f : A -> M B) (tr tr' : trace) (a : A) :
  m tr = (Ok a, tr') -> bind m f tr = f a tr'.
Proof. intros H. unfold bind. now rewrite H. Qed.

Lemma bind_raise {A B} (m : M A) (f : A -> M B) (tr tr' : trace) (e : exn) :
  m tr = (Raise e, tr') -> bind m f tr = (Raise e, tr').
Proof. intros H. unfold bind. now rewrite H. Qed.

Lemma try_except_ok {A} (body : M A) (h : exn -> M A) (tr tr' : trace) (a : A) :
  body tr = (Ok a, tr') -> try_except body h tr = (Ok a, tr').
Proof. intros H. unfold try_except. now rewrite H. Qed.

Lemma try_except_raise {A} (body : M A) (h : exn -> M A) (tr tr' : trace) (e : exn) :
  body tr = (Raise e, tr') -> try_except body h tr = h e tr'.
Proof. intros H. unfold try_except. now rewrite H. Qed.

Lemma platform_ok (ev : event) (tr : trace) :
  reliable world -> platform world ev tr = (Ok tt, tr ++ [ev]).
Proof. intros H. unfold platform. now rewrite H. Qed.

(** The failure marker and the reply that goes with it. *)
Lemma report_ok (body : str) (tr : trace) :
  reliable world ->
  (bind (clear_reactions world)
     (fun _ => bind (add_reaction world cross_mark)
                 (fun _ => reply world body))) tr =
  (Ok tt, tr ++ [ClearReactions; AddReaction cross_mark; Reply body]).
Proof.
  intros H. unfold clear_reactions, add_reaction, reply.
  rewrite (bind_ok _ _ _ _ _ (platform_ok _ _ H)).
  rewrite (bind_ok _ _ _ _ _ (platform_ok _ _ H)).
  rewrite platform_ok by assumption.
  now rewrite <- !app_assoc.
Qed.

Lemma failed_ok (e : exn) (tr : trace) :
  reliable world ->
  failed world e tr =
  (Ok tt,
   tr ++ [ClearReactions; AddReaction cross_mark;
          Reply (match exn_kind_of e with
                 | TimeoutError => lit "Error: Request timed out. Please try again."
                 | _ => lit "Error: " ++ exn_str e
                 end)]).
Proof.
  intros H. unfold failed.
  destruct (exn_kind_of e);
    (erewrite try_except_ok; [reflexivity | now apply report_ok]).
Qed.

Lemma relay_not_200 (r : response) (error_text : str) (tr : trace) :
  reliable world ->
  status r <> 200%Z ->
  text r = Ok error_text ->
  relay repr_str world r tr =
  (Ok tt,
   tr ++ [ClearReactions; AddReaction cross_mark;
          Reply (lit "Error: " ++ format_value repr_str (error_detail r error_text))]).
Proof.
  intros H Hs Ht. unfold relay.
  apply Z.eqb_neq in Hs. rewrite Hs. cbn [negb].
  erewrite bind_ok; [|unfold lift; now rewrite Ht].
  erewrite bind_ok; [now apply report_ok|].
  unfold error_detail, try_except, bind, lift, get, ret.
  destruct (json_body r) as [[| | | | | |items]|e]; try reflexivity.
  now destruct (lookup (lit "detail") items).
Qed.

Lemma send_chunks_one (c : str) (tr : trace) :
  reliable world ->
  send_chunks world [c] tr = (Ok tt, tr ++ [Reply (first_reply c)]).
Proof.
  intros H.
  unfold send_chunks, bind, try_except, first_chunk, ret, reply, platform.
  now rewrite H.
Qed.

Lemma send_chunks_none (tr : trace) :
  send_chunks world [] tr = (Raise IndexError, tr).
Proof. reflexivity. Qed.

Lemma relay_formatted (r : response) (result formatted_dates : json) (tr : trace) :
  status r = 200%Z ->
  json_body r = Ok result ->
  get result (lit "formatted_dates") (JStr (lit "Error: No dates found")) =
    Ok formatted_dates ->
  relay repr_str world r tr =
  bind (split_message_of formatted_dates) (send_chunks world) tr.
Proof.
  intros Hs Hj Hg. unfold relay. rewrite Hs. cbn [Z.eqb Pos.eqb negb].
  erewrite bind_ok; [|unfold lift; now rewrite Hj].
  erewrite bind_ok; [|unfold lift; now rewrite Hg].
  reflexivity.
Qed.

End Steps.

(** ** Properties of the chunking *)

(** C9.  [split_message] of the empty string gives no chunk at all. *)
Theorem split_message_empty : split_message [] = [].
Proof. reflexivity. Qed.

(** C1, as stated, fails: a message that is one line of 1991 characters
    gives one chunk of 1991 characters, above [MAX_DISCORD_LENGTH]. *)
Lemma chunk_over_limit :
  In long_line (split_message long_line) /\
  ~ length long_line <= MAX_DISCORD_LENGTH.
Proof.
  split.
  - left. vm_compute. reflexivity.
  - apply Nat.lt_nge, Nat.ltb_lt. vm_compute. reflexivity.
Qed.

(** C1, amended.  Every chunk of [split_message] has length at most
    [MAX_DISCORD_LENGTH], unless it is a single line of the message that is
    itself longer than the limit, stripped. *)
Theorem chunk_length_bound (message c : str) :
  In c (split_message message) ->
  length c <= MAX_DISCORD_LENGTH \/
  exists line,
    In line (split newline message) /\
    MAX_DISCORD_LENGTH < length line /\
    c = strip line.
Proof.
  intros Hin.
  assert (H := chunk_lines_within (split newline message)).
  rewrite Forall_forall in H. exact (H c Hin).
Qed.

Lemma chunk_length_bound_witness :
  In (lit "May 5 Berlin") (split_message (lit "May 5 Berlin")) /\
  (length (lit "May 5 Berlin") <= MAX_DISCORD_LENGTH \/
   exists line,
     In line (split newline (lit "May 5 Berlin")) /\
     MAX_DISCORD_LENGTH < length line /\
     lit "May 5 Berlin" = strip line).
Proof.
  split.
  - left. vm_compute. reflexivity.
  - apply (chunk_length_bound (lit "May 5 Berlin") (lit "May 5 Berlin")).
    left. vm_compute. reflexivity.
Defined.

(** C2, as stated, fails: from ["a\n"] the chunks are ["a"] alone, and the
    empty last line of the message is gone from their join. *)
Lemma join_drops_line :
  split newline (join [newline] (split_message [97%N; newline])) <>
  split newline [97%N; newline].
Proof. vm_compute. discriminate. Qed.

(** C2, amended.  The join of the chunks by newlines has the content of the
    message: the lines that are not blank, each one stripped of its leading
    and trailing white space, all of them and in the order of the message.
    Blank lines can be lost. *)
Theorem chunks_cover_content (message : str) :
  content_of (split newline (join [newline] (split_message message))) =
  content_of (split newline message).
Proof.
  fold (lines_content (join [newline] (split_message message))).
  rewrite lines_content_join. unfold split_message.
  rewrite chunk_lines_content. apply lines_content_lines.
Qed.

Lemma content_of_flat_map (chunks : list str) :
  content_of (flat_map (split newline) chunks) = flat_map lines_content chunks.
Proof.
  induction chunks as [|c chunks IH]; [reflexivity|].
  simpl. now rewrite content_of_app, IH.
Qed.

(** C4.  A line of the message longer than [MAX_DISCORD_LENGTH] is a chunk
    of its own, the line stripped: before it come the chunks of the lines
    before it, after it the chunks of the lines after it.  The lines of the
    chunks, in the order of the chunks, hold the content of the message in
    the order of its lines. *)
Theorem long_line_standalone (message : str) (pre post : list str) (line : str) :
  split newline message = pre ++ line :: post ->
  MAX_DISCORD_LENGTH < length line ->
  split_message message = chunk_lines pre ++ strip line :: chunk_lines post /\
  content_of (flat_map (split newline) (split_message message)) =
  content_of (split newline message).
Proof.
  intros Hsplit Hlong. split.
  - unfold split_message. rewrite Hsplit. now apply chunk_lines_long_line.
  - rewrite content_of_flat_map. unfold split_message.
    rewrite chunk_lines_content. apply lines_content_lines.
Qed.

Lemma long_line_standalone_witness :
  (split newline long_message = [lit "May 5"] ++ long_line :: [lit "May 6"] /\
   MAX_DISCORD_LENGTH < length long_line) /\
  split_message long_message =
    chunk_lines [lit "May 5"] ++ strip long_line :: chunk_lines [lit "May 6"] /\
  content_of (flat_map (split newline) (split_message long_message)) =
  content_of (split newline long_message).
Proof.
  assert (H1 : split newline long_message =
               [lit "May 5"] ++ long_line :: [lit "May 6"])
    by (vm_compute; reflexivity).
  assert (H2 : MAX_DISCORD_LENGTH < length long_line)
    by (apply Nat.ltb_lt; vm_compute; reflexivity).
  split; [split; assumption|].
  exact (long_line_standalone long_message [lit "May 5"] [lit "May 6"] long_line H1 H2).
Defined.

(** ** Properties of the dispatcher *)

Lemma startswith_spec (prefix s : str) :
  startswith prefix s = true <-> begins_with prefix s.
Proof.
  unfold begins_with. revert s.
  induction prefix as [|p prefix IH]; intros s.
  - split; [intros _; now exists s | reflexivity].
  - destruct s as [|c s]; simpl.
    + split; [discriminate | intros [r Hr]; discriminate].
    + rewrite andb_true_iff, N.eqb_eq, IH. split.
      * intros [-> [r ->]]. now exists r.
      * intros [r Hr]. injection Hr as -> ->. split; [reflexivity | now exists r].
Qed.

Lemma contains_unfold (sub s : str) :
  contains sub s =
  startswith sub s || match s with [] => false | _ :: s' => contains sub s' end.
Proof. now destruct s. Qed.

Lemma contains_spec (sub s : str) :
  contains sub s = true <-> occurs_in sub s.
Proof.
  unfold occurs_in. split.
  - induction s as [|c s IH]; rewrite contains_unfold, orb_true_iff.
    + intros [H | H]; [|discriminate].
      apply startswith_spec in H as [r ->]. now exists [], r.
    + intros [H | H].
      * apply startswith_spec in H as [r ->]. now exists [], r.
      * destruct (IH H) as (a & b & ->). now exists (c :: a), b.
  - intros (a & b & ->). induction a as [|c a IH].
    + rewrite contains_unfold. apply orb_true_iff. left.
      apply startswith_spec. now exists b.
    + rewrite contains_unfold. apply orb_true_iff. right. exact IH.
Qed.

Lemma first_image_spec (atts : list attachment) :
  match first_image atts with
  | Ok (Some a) => hd_error atts = Some a /\ image_first atts
  | Ok None => typed_first atts /\ ~ image_first atts
  | Raise e =>
      e = AttributeError JNull (lit "startswith") /\
      exists a rest, atts = a :: rest /\ content_type a = None
  end.
Proof.
  unfold first_image, image_first, typed_first. destruct atts as [|a rest].
  - split; [intros a rest H; discriminate|].
    intros (a & rest & t & H & _). discriminate.
  - destruct (content_type a) as [t|] eqn:Et.
    + destruct (startswith (lit "image/") t) eqn:E.
      * split; [reflexivity|]. exists a, rest, t.
        split; [reflexivity|]. split; [exact Et | now apply startswith_spec].
      * split.
        -- intros a' rest' H. injection H as <- <-. congruence.
        -- intros (a' & rest' & t' & H & Ht & Hb). injection H as <- <-.
           apply startswith_spec in Hb. congruence.
    + split; [reflexivity|]. now exists a, rest.
Qed.

Lemma is_image_url_spec (content : str) :
  is_image_url content = true <-> image_link content.
Proof.
  unfold is_image_url, image_link.
  rewrite andb_true_iff, orb_true_iff, !startswith_spec, existsb_exists.
  split; intros [H (ext & Hin & Hext)]; (split; [exact H|]); exists ext;
    (split; [exact Hin|]); now apply contains_spec.
Qed.

Section Dispatch.

Variable repr_str : str -> str.
Variable env : environ.
Variable world : outside.
Variable self_id : Z.

(** A message that is taken up gets the marker; its kind is found and the
    pipeline of the kind is run, all under the handler of [on_message]. *)
Lemma on_message_runs (m : message) :
  mentioned m = true ->
  author m <> self_id ->
  stripped_content self_id m <> [] \/ attachments m <> [] ->
  on_message repr_str env world self_id m =
  bind (add_reaction world hourglass)
       (fun _ =>
          try_except
            (bind (lift (classify (attachments m) (stripped_content self_id m)))
                  (fun k => run repr_str env world k))
            (fun e =>
               bind (clear_reactions world)
                    (fun _ => bind (add_reaction world cross_mark)
                                (fun _ => reply world (lit "Error: " ++ exn_str e))))).
Proof.
  intros Hm Ha Hc. unfold on_message. rewrite Hm. cbn [negb].
  apply Z.eqb_neq in Ha. rewrite Ha.
  destruct (stripped_content self_id m) as [|c s];
    destruct (attachments m) as [|a atts]; try reflexivity.
  now destruct Hc.
Qed.

(** With the kind found, the pipeline of that kind is the one that runs. *)
Lemma on_message_kind (m : message) (k : kind) :
  mentioned m = true ->
  author m <> self_id ->
  stripped_content self_id m <> [] \/ attachments m <> [] ->
  classify (attachments m) (stripped_content self_id m) = Ok k ->
  on_message repr_str env world self_id m =
  taken_up world (run repr_str env world k).
Proof.
  intros Hm Ha Hc Hk. rewrite (on_message_runs m Hm Ha Hc), Hk. reflexivity.
Qed.

(** With the first test raising, no pipeline runs: the handler reports. *)
Lemma on_message_unclassified (m : message) (e : exn) :
  mentioned m = true ->
  author m <> self_id ->
  stripped_content self_id m <> [] \/ attachments m <> [] ->
  classify (attachments m) (stripped_content self_id m) = Raise e ->
  on_message repr_str env world self_id m =
  bind (add_reaction world hourglass) (fun _ => last_resort world e).
Proof.
  intros Hm Ha Hc Hk. rewrite (on_message_runs m Hm Ha Hc), Hk. reflexivity.
Qed.

(** C3, amended.  For a message that is taken up and whose first
    attachment, when it has one, declares a content type, the dispatcher
    runs exactly one of the three pipelines, in this order: the pipeline of
    the image attachment, on the first attachment, when that attachment
    declares a content type that begins with [image/]; otherwise the
    pipeline of the image URL, on the stripped text, when that text begins
    with [http://] or [https://] and has one of the extensions [.jpg],
    [.jpeg], [.png], [.gif], [.webp] anywhere in it, whatever the case of
    the letters; otherwise the pipeline of the text, on the stripped
    text. *)
Theorem dispatch_priority (m : message) :
  mentioned m = true ->
  author m <> self_id ->
  stripped_content self_id m <> [] \/ attachments m <> [] ->
  typed_first (attachments m) ->
  let text := stripped_content self_id m in
  (image_first (attachments m) /\
   exists a,
     hd_error (attachments m) = Some a /\
     on_message repr_str env world self_id m =
     taken_up world (process_image repr_str env world a)) \/
  (~ image_first (attachments m) /\ image_link text /\
   on_message repr_str env world self_id m =
   taken_up world (process_image_url repr_str env world text)) \/
  (~ image_first (attachments m) /\ ~ image_link text /\
   on_message repr_str env world self_id m =
   taken_up world (process_text repr_str env world text)).
Proof.
  intros Hm Ha Hc Hty text.
  assert (Hf := first_image_spec (attachments m)).
  assert (Hk := on_message_kind m).
  unfold classify in Hk. fold text in Hk.
  destruct (first_image (attachments m)) as [[a|]|e].
  - left. destruct Hf as [Hhd Himg]. split; [exact Himg|].
    exists a. split; [exact Hhd|]. exact (Hk _ Hm Ha Hc eq_refl).
  - right. destruct Hf as [_ Hno].
    destruct (is_image_url text) eqn:E.
    + left. split; [exact Hno|]. split; [now apply is_image_url_spec|].
      exact (Hk _ Hm Ha Hc eq_refl).
    + right. split; [exact Hno|]. split.
      * rewrite <- is_image_url_spec. congruence.
      * exact (Hk _ Hm Ha Hc eq_refl).
  - destruct Hf as [_ (a & rest & Hatt & Hnone)].
    now destruct (Hty a rest Hatt).
Qed.

(** C6.  A message that does not mention the bot, or that the bot wrote
    itself, has no effect: the dispatch adds no marker, no reply and no
    request to what was done before, and ends without an exception. *)
Theorem irrelevant_message_ignored (m : message) (tr : trace) :
  mentioned m = false \/ author m = self_id ->
  on_message repr_str env world self_id m tr = (Ok tt, tr).
Proof.
  intros [H | H]; unfold on_message.
  - now rewrite H.
  - destruct (mentioned m); [|reflexivity]. cbn [negb].
    apply Z.eqb_eq in H. now rewrite H.
Qed.

(** C8.  A message that mentions the bot, from someone else, with no text
    left after the mention is taken out and with no attachment: the one
    thing the dispatch does is the reply that asks for input; there is no
    marker and nothing after it. *)
Theorem empty_message_asks_for_input (m : message) (tr : trace) :
  mentioned m = true ->
  author m <> self_id ->
  stripped_content self_id m = [] ->
  attachments m = [] ->
  on_message repr_str env world self_id m tr =
  (match platform_fault world (length tr) with
   | Some e => Raise e
   | None => Ok tt
   end,
   tr ++ [Reply (lit "Please provide some tour dates, an image, or an image URL.")]).
Proof.
  intros Hm Ha Hc Hatt. unfold on_message. rewrite Hm. cbn [negb].
  apply Z.eqb_neq in Ha. rewrite Ha, Hc, Hatt. reflexivity.
Qed.

End Dispatch.

(** C3, as stated, fails: a link with an extension in its middle, which does
    not end in an extension, is taken the image-URL way: the dispatch
    downloads it, where the claim has the text pipeline. *)
Lemma extension_inside_link :
  existsb (fun ext => endswith ext (lower poster_link)) image_extensions = false /\
  classify_by_suffix [] poster_link = Text poster_link /\
  classify [] poster_link = Ok (ImageUrl poster_link) /\
  stripped_content 42 link_message = poster_link /\
  on_message sample_repr sample_env (answering bad_input) 42 link_message [] =
  (Ok tt,
   [AddReaction hourglass; AddReaction hourglass; HttpGet poster_link;
    ClearReactions; AddReaction cross_mark;
    Reply (lit "Error: Request timed out. Please try again.")]).
Proof. repeat split; vm_compute; reflexivity. Qed.

(** ** Properties of the relay pipelines *)

Section Pipelines.

Variable repr_str : str -> str.
Variable env : environ.
Variable world : outside.

Lemma process_text_relay (t : str) (r : response) (tr : trace) :
  reliable world ->
  http_post world (text_url env) (JsonText t (bearer env)) = Ok r ->
  process_text repr_str env world t tr =
  settle world (relay repr_str world r
            (tr ++ [AddReaction hourglass;
                    HttpPost (text_url env) (JsonText t (bearer env))])).
Proof.
  intros H Hp.
  unfold process_text, try_except, bind, add_reaction, platform, session_post.
  fold (text_url env). rewrite H, Hp, <- app_assoc. reflexivity.
Qed.

Lemma process_image_relay (a : attachment) (data : bytes) (r : response) (tr : trace) :
  reliable world ->
  attachment_read world a = Ok data ->
  http_post world (image_url env) (FormFile data (filename a) (content_type a)) = Ok r ->
  process_image repr_str env world a tr =
  settle world (relay repr_str world r
            (tr ++ [AddReaction hourglass; ReadAttachment a;
                    HttpPost (image_url env)
                             (FormFile data (filename a) (content_type a))])).
Proof.
  intros H Hr Hp.
  unfold process_image, try_except, bind, add_reaction, platform, read, session_post.
  fold (image_url env). rewrite H, Hr, Hp, <- !app_assoc. reflexivity.
Qed.

Lemma process_image_url_relay (url : str) (d : download) (data : bytes)
      (r : response) (tr : trace) :
  reliable world ->
  http_get world url = Ok d ->
  d_status d = 200%Z ->
  d_read d = Ok data ->
  http_post world (image_url env) (forwarded url d data) = Ok r ->
  process_image_url repr_str env world url tr =
  settle world (relay repr_str world r
            (tr ++ [AddReaction hourglass; HttpGet url;
                    HttpPost (image_url env) (forwarded url d data)])).
Proof.
  intros H Hg Hs Hr Hp.
  unfold process_image_url, try_except, bind, add_reaction, platform,
    session_get, session_post, lift.
  fold (image_url env). rewrite H, Hg, Hs. cbn [Z.eqb Pos.eqb negb].
  rewrite Hr. fold (forwarded url d data). rewrite Hp, <- !app_assoc. reflexivity.
Qed.

(** C5.  When the formatting API answers the text pipeline with a status
    other than 200, the pipeline takes the [detail] field of the JSON body
    as the error detail and, when the body does not parse, the raw text of
    the body; it clears the markers, sets the failure marker, replies with
    the detail, and does nothing more. *)
Theorem non_200_reported (t : str) (r : response) (error_text : str) (tr : trace) :
  reliable world ->
  http_post world (text_url env) (JsonText t (bearer env)) = Ok r ->
  status r <> 200%Z ->
  text r = Ok error_text ->
  exists detail,
    process_text repr_str env world t tr =
    (Ok tt,
     tr ++ [AddReaction hourglass;
            HttpPost (text_url env) (JsonText t (bearer env));
            ClearReactions; AddReaction cross_mark;
            Reply (lit "Error: " ++ detail)]) /\
    (forall items v,
        json_body r = Ok (JDict items) ->
        lookup (lit "detail") items = Some v ->
        detail = format_value repr_str v) /\
    (forall e, json_body r = Raise e -> detail = error_text) /\
    (forall items,
        json_body r = Ok (JDict items) ->
        lookup (lit "detail") items = None ->
        detail = lit "Unknown error") /\
    (forall v,
        json_body r = Ok v ->
        (forall items, v <> JDict items) ->
        detail = error_text).
Proof.
  intros H Hp Hs Ht.
  exists (format_value repr_str (error_detail r error_text)). split.
  - rewrite (process_text_relay _ _ _ H Hp).
    rewrite (relay_not_200 repr_str world _ _ _ H Hs Ht).
    cbn [settle]. now rewrite <- app_assoc.
  - unfold error_detail. repeat split.
    + intros items v -> ->. reflexivity.
    + intros e ->. reflexivity.
    + intros items -> ->. reflexivity.
    + intros v -> Hv. destruct v; try reflexivity. now destruct (Hv items).
Qed.

Lemma relay_no_dates (r : response) (items : list (str * json)) (tr : trace) :
  reliable world ->
  status r = 200%Z ->
  json_body r = Ok (JDict items) ->
  lookup (lit "formatted_dates") items = None ->
  relay repr_str world r tr = (Ok tt, tr ++ [Reply (first_reply no_dates)]).
Proof.
  intros H Hs Hj Hl.
  rewrite (relay_formatted repr_str world r (JDict items) (JStr no_dates) tr Hs Hj)
    by (cbn [get]; now rewrite Hl).
  unfold split_message_of.
  erewrite bind_ok; [|reflexivity].
  replace (split_message (lit "Error: No dates found")) with [no_dates]
    by (vm_compute; reflexivity).
  now apply send_chunks_one.
Qed.

(** C7.  When the formatting API answers 200 with a JSON object that has
    no [formatted_dates] field, the result text is the literal
    ["Error: No dates found"]: it is what [get] gives, and what each
    pipeline replies with, as one chunk. *)
Theorem missing_dates_fallback (r : response) (items : list (str * json)) (tr : trace) :
  reliable world ->
  status r = 200%Z ->
  json_body r = Ok (JDict items) ->
  lookup (lit "formatted_dates") items = None ->
  get (JDict items) (lit "formatted_dates") (JStr (lit "Error: No dates found")) =
    Ok (JStr (lit "Error: No dates found")) /\
  (forall t,
      http_post world (text_url env) (JsonText t (bearer env)) = Ok r ->
      process_text repr_str env world t tr =
      (Ok tt,
       tr ++ [AddReaction hourglass;
              HttpPost (text_url env) (JsonText t (bearer env));
              Reply (first_reply (lit "Error: No dates found"))])) /\
  (forall a data,
      attachment_read world a = Ok data ->
      http_post world (image_url env) (FormFile data (filename a) (content_type a)) = Ok r ->
      process_image repr_str env world a tr =
      (Ok tt,
       tr ++ [AddReaction hourglass; ReadAttachment a;
              HttpPost (image_url env) (FormFile data (filename a) (content_type a));
              Reply (first_reply (lit "Error: No dates found"))])) /\
  (forall url d data,
      http_get world url = Ok d ->
      d_status d = 200%Z ->
      d_read d = Ok data ->
      http_post world (image_url env) (forwarded url d data) = Ok r ->
      process_image_url repr_str env world url tr =
      (Ok tt,
       tr ++ [AddReaction hourglass; HttpGet url;
              HttpPost (image_url env) (forwarded url d data);
              Reply (first_reply (lit "Error: No dates found"))])).
Proof.
  intros H Hs Hj Hl. split; [cbn [get]; now rewrite Hl|].
  split; [|split].
  - intros t Hp. rewrite (process_text_relay _ _ _ H Hp).
    rewrite (relay_no_dates _ _ _ H Hs Hj Hl). cbn [settle].
    now rewrite <- app_assoc.
  - intros a data Hr Hp. rewrite (process_image_relay _ _ _ _ H Hr Hp).
    rewrite (relay_no_dates _ _ _ H Hs Hj Hl). cbn [settle].
    now rewrite <- app_assoc.
  - intros url d data Hg Hd Hr Hp.
    rewrite (process_image_url_relay _ _ _ _ _ H Hg Hd Hr Hp).
    rewrite (relay_no_dates _ _ _ H Hs Hj Hl). cbn [settle].
    now rewrite <- app_assoc.
Qed.

(** A result text without chunks: the first reply has nothing to take. *)
Lemma relay_no_chunks (r : response) (items : list (str * json)) (s : str) (tr : trace) :
  status r = 200%Z ->
  json_body r = Ok (JDict items) ->
  lookup (lit "formatted_dates") items = Some (JStr s) ->
  split_message s = [] ->
  relay repr_str world r tr = (Raise IndexError, tr).
Proof.
  intros Hs Hj Hl Hc.
  rewrite (relay_formatted repr_str world r (JDict items) (JStr s) tr Hs Hj)
    by (cbn [get]; now rewrite Hl).
  unfold split_message_of.
  erewrite bind_ok; [|reflexivity]. rewrite Hc. apply send_chunks_none.
Qed.

(** C10.  When the formatting API answers the text pipeline with 200 and
    [formatted_dates] is the empty string, [split_message] gives no chunk,
    [chunks[0]] raises the index error, and the pipeline ends with the
    markers cleared, the failure marker and the error reply; no formatted
    reply is sent. *)
Theorem empty_dates_fail (t : str) (r : response) (items : list (str * json))
        (tr : trace) :
  reliable world ->
  http_post world (text_url env) (JsonText t (bearer env)) = Ok r ->
  status r = 200%Z ->
  json_body r = Ok (JDict items) ->
  lookup (lit "formatted_dates") items = Some (JStr ([])) ->
  split_message ([]) = [] /\
  first_chunk (split_message ([])) tr = (Raise IndexError, tr) /\
  process_text repr_str env world t tr =
  (Ok tt,
   tr ++ [AddReaction hourglass;
          HttpPost (text_url env) (JsonText t (bearer env));
          ClearReactions; AddReaction cross_mark;
          Reply (lit "Error: list index out of range")]).
Proof.
  intros H Hp Hs Hj Hl. split; [reflexivity|]. split; [reflexivity|].
  rewrite (process_text_relay _ _ _ H Hp).
  rewrite (relay_no_chunks _ _ _ _ Hs Hj Hl) by reflexivity.
  cbn [settle]. rewrite (failed_ok world _ _ H). cbn [exn_kind_of IndexError exn_str].
  now rewrite <- app_assoc.
Qed.

End Pipelines.

(** ** Sample dispatches *)

Lemma answering_reliable (r : response) : reliable (answering r).
Proof. intros n. reflexivity. Qed.

Lemma non_200_reported_witness :
  (reliable (answering bad_input) /\
   http_post (answering bad_input) (text_url sample_env)
             (JsonText (lit "May 5 Berlin") (bearer sample_env)) = Ok bad_input /\
   status bad_input <> 200%Z /\
   text bad_input = Ok bad_input_body) /\
  process_text sample_repr sample_env (answering bad_input) (lit "May 5 Berlin") [] =
  (Ok tt,
   [AddReaction hourglass;
    HttpPost (lit "http://api:4545/format/text") tour_request;
    ClearReactions; AddReaction cross_mark;
    Reply (lit "Error: bad input")]).
Proof.
  assert (H1 : reliable (answering bad_input)) by (intros n; reflexivity).
  assert (H2 : http_post (answering bad_input) (text_url sample_env)
                 (JsonText (lit "May 5 Berlin") (bearer sample_env)) = Ok bad_input)
    by reflexivity.
  assert (H3 : status bad_input <> 200%Z) by (simpl; lia).
  assert (H4 : text bad_input = Ok bad_input_body) by reflexivity.
  split; [repeat split; assumption|].
  destruct (non_200_reported sample_repr sample_env (answering bad_input)
              (lit "May 5 Berlin") bad_input bad_input_body [] H1 H2 H3 H4)
    as (detail & Hrun & Hfield & _).
  rewrite Hrun.
  rewrite (Hfield [(lit "detail", JStr (lit "bad input"))] (JStr (lit "bad input"))
             eq_refl eq_refl).
  reflexivity.
Defined.

Lemma irrelevant_message_ignored_witness :
  (mentioned overheard = false \/ author overheard = 42%Z) /\
  on_message sample_repr sample_env (answering bad_input) 42 overheard [] =
  (Ok tt, []).
Proof.
  assert (H : mentioned overheard = false \/ author overheard = 42%Z)
    by (left; reflexivity).
  split; [exact H|].
  exact (irrelevant_message_ignored sample_repr sample_env (answering bad_input)
           42 overheard [] H).
Defined.

Lemma empty_message_asks_for_input_witness :
  (mentioned bare_mention = true /\
   author bare_mention <> 42%Z /\
   stripped_content 42 bare_mention = [] /\
   attachments bare_mention = []) /\
  on_message sample_repr sample_env (answering bad_input) 42 bare_mention [] =
  (Ok tt,
   [Reply (lit "Please provide some tour dates, an image, or an image URL.")]).
Proof.
  assert (H1 : mentioned bare_mention = true) by reflexivity.
  assert (H2 : author bare_mention <> 42%Z) by (simpl; lia).
  assert (H3 : stripped_content 42 bare_mention = []) by (vm_compute; reflexivity).
  assert (H4 : attachments bare_mention = []) by reflexivity.
  split; [repeat split; assumption|].
  exact (empty_message_asks_for_input sample_repr sample_env (answering bad_input)
           42 bare_mention [] H1 H2 H3 H4).
Defined.

Lemma missing_dates_fallback_witness :
  (reliable (answering no_field) /\
   status no_field = 200%Z /\
   json_body no_field = Ok (JDict []) /\
   lookup (lit "formatted_dates") [] = None) /\
  process_text sample_repr sample_env (answering no_field) (lit "May 5 Berlin") [] =
  (Ok tt,
   [AddReaction hourglass;
    HttpPost (lit "http://api:4545/format/text") tour_request;
    Reply (first_reply (lit "Error: No dates found"))]).
Proof.
  assert (H1 : reliable (answering no_field)) by (intros n; reflexivity).
  assert (H2 : status no_field = 200%Z) by reflexivity.
  assert (H3 : json_body no_field = Ok (JDict [])) by reflexivity.
  assert (H4 : lookup (lit "formatted_dates") [] = None) by reflexivity.
  split; [repeat split; assumption|].
  destruct (missing_dates_fallback sample_repr sample_env (answering no_field)
              no_field [] [] H1 H2 H3 H4) as (_ & Htext & _).
  exact (Htext (lit "May 5 Berlin") eq_refl).
Defined.

Lemma empty_dates_fail_witness :
  (reliable (answering empty_dates) /\
   http_post (answering empty_dates) (text_url sample_env)
             (JsonText (lit "May 5 Berlin") (bearer sample_env)) = Ok empty_dates /\
   status empty_dates = 200%Z /\
   json_body empty_dates = Ok (JDict [(lit "formatted_dates", JStr ([]))]) /\
   lookup (lit "formatted_dates") [(lit "formatted_dates", JStr ([]))] =
     Some (JStr ([]))) /\
  process_text sample_repr sample_env (answering empty_dates) (lit "May 5 Berlin") [] =
  (Ok tt,
   [AddReaction hourglass;
    HttpPost (lit "http://api:4545/format/text") tour_request;
    ClearReactions; AddReaction cross_mark;
    Reply (lit "Error: list index out of range")]).
Proof.
  assert (H1 : reliable (answering empty_dates)) by (intros n; reflexivity).
  assert (H2 : http_post (answering empty_dates) (text_url sample_env)
                 (JsonText (lit "May 5 Berlin") (bearer sample_env)) = Ok empty_dates)
    by reflexivity.
  assert (H3 : status empty_dates = 200%Z) by reflexivity.
  assert (H4 : json_body empty_dates =
               Ok (JDict [(lit "formatted_dates", JStr ([]))])) by reflexivity.
  assert (H5 : lookup (lit "formatted_dates")
                 [(lit "formatted_dates", JStr ([]))] = Some (JStr ([])))
    by reflexivity.
  split; [repeat split; assumption|].
  destruct (empty_dates_fail sample_repr sample_env (answering empty_dates)
              (lit "May 5 Berlin") empty_dates
              [(lit "formatted_dates", JStr ([]))] [] H1 H2 H3 H4 H5)
    as (_ & _ & Hrun).
  exact Hrun.
Defined.

(** ** More on [strip] *)

Lemma lstrip_head (s : str) :
  match lstrip s with
  | [] => True
  | c :: _ => is_space c = false
  end.
Proof.
  induction s as [|c s IH]; simpl; [exact I|].
  destruct (is_space c) eqn:E; [exact IH | exact E].
Qed.

Lemma lstrip_fix (s : str) :
  match s with
  | [] => True
  | c :: _ => is_space c = false
  end -> lstrip s = s.
Proof. destruct s as [|c s]; simpl; [reflexivity|]. now intros ->. Qed.

Lemma lstrip_idem (s : str) : lstrip (lstrip s) = lstrip s.
Proof. apply lstrip_fix, lstrip_head. Qed.

(** [rstrip] leaves a string that ends in no white space as it is. *)
Lemma rstrip_snoc (s : str) (c : char) :
  is_space c = false -> rstrip (s ++ [c]) = s ++ [c].
Proof.
  intros H. unfold rstrip. rewrite rev_app_distr. simpl. rewrite H.
  change (c :: rev s) with ([c] ++ rev s).
  now rewrite rev_app_distr, rev_involutive.
Qed.

Lemma rstrip_tail (s : str) :
  rstrip s = [] \/ exists y c, rstrip s = y ++ [c] /\ is_space c = false.
Proof.
  unfold rstrip. assert (H := lstrip_head (rev s)).
  destruct (lstrip (rev s)) as [|c x]; [now left|].
  right. exists (rev x), c. split; [reflexivity | exact H].
Qed.

Lemma lstrip_suffix_tail (s : str) (y : str) (c : char) :
  s = y ++ [c] -> is_space c = false -> exists z, lstrip s = z ++ [c].
Proof.
  revert y. induction s as [|d s IH]; intros y Hs Hc.
  - now destruct y.
  - simpl. destruct (is_space d) eqn:Hd.
    + destruct y as [|d' y]; simpl in Hs.
      * injection Hs as -> ->. congruence.
      * injection Hs as -> ->. now apply (IH y).
    + exists y. exact Hs.
Qed.

(** What [strip] gives is empty or tidy. *)
Lemma strip_tail (s : str) :
  strip s = [] \/ exists z c, strip s = z ++ [c] /\ is_space c = false.
Proof.
  unfold strip. destruct (rstrip_tail s) as [-> | (y & c & E & Hc)].
  - now left.
  - right. destruct (lstrip_suffix_tail _ _ _ E Hc) as [z Hz]. now exists z, c.
Qed.

Lemma strip_idem (s : str) : strip (strip s) = strip s.
Proof.
  destruct (strip_tail s) as [E | (z & c & E & Hc)].
  - rewrite E. reflexivity.
  - unfold strip at 1. rewrite E, (rstrip_snoc _ _ Hc), <- E.
    unfold strip. apply lstrip_idem.
Qed.

Lemma last_snoc (s : str) (c d : char) : last (s ++ [c]) d = c.
Proof. apply last_last. Qed.

Lemma tidy_spec (s : str) :
  tidy s = true <->
  exists c z d, s = c :: z /\ is_space c = false /\
                last s c = d /\ is_space d = false.
Proof.
  unfold tidy. destruct s as [|c z].
  - split; [discriminate | intros (c & z & d & H & _); discriminate].
  - rewrite andb_true_iff, !negb_true_iff. split.
    + intros [H1 H2]. now exists c, z, (last (c :: z) c).
    + intros (c' & z' & d & H & H1 & H2 & H3). injection H as <- <-.
      now subst d.
Qed.

Lemma tidy_strip (s : str) : tidy s = true -> strip s = s.
Proof.
  intros H. apply tidy_spec in H as (c & z & d & -> & Hc & Hl & Hd).
  destruct (exists_last (l := c :: z)) as (y & e & E); [discriminate|].
  rewrite E in Hl. rewrite last_snoc in Hl. subst e.
  unfold strip. rewrite E, (rstrip_snoc _ _ Hd), <- E. simpl. now rewrite Hc.
Qed.

Lemma strip_tidy (s : str) : truthy s = true -> strip s = s -> tidy s = true.
Proof.
  intros Ht E. destruct s as [|c z]; [discriminate|].
  apply tidy_spec. exists c, z, (last (c :: z) c).
  assert (Hh := lstrip_head (rstrip (c :: z))). fold (strip (c :: z)) in Hh.
  rewrite E in Hh. split; [reflexivity|]. split; [exact Hh|]. split; [reflexivity|].
  destruct (strip_tail (c :: z)) as [E' | (y & d & E' & Hd)]; rewrite E in E'.
  - discriminate.
  - rewrite E'. now rewrite last_snoc.
Qed.

Lemma tidy_join (a b : str) :
  tidy a = true -> tidy b = true -> tidy (a ++ newline :: b) = true.
Proof.
  intros Ha Hb.
  apply tidy_spec in Ha as (c & z & d & -> & Hc & _ & _).
  apply tidy_spec in Hb as (c' & z' & d' & -> & Hc' & Hl' & Hd').
  apply tidy_spec. exists c, (z ++ newline :: c' :: z'), d'.
  split; [reflexivity|]. split; [exact Hc|]. split; [|exact Hd'].
  destruct (exists_last (l := c' :: z')) as (y & e & E); [discriminate|].
  rewrite E in Hl'. rewrite last_snoc in Hl'. subst e.
  rewrite E.
  change ((c :: z) ++ newline :: y ++ [d']) with ((c :: z) ++ (newline :: y) ++ [d']).
  rewrite app_assoc. apply last_snoc.
Qed.

(** ** More on the loop of [split_message] *)

Lemma join_snoc (sep : str) (cs : list str) (a : str) :
  cs <> [] -> join sep (cs ++ [a]) = join sep cs ++ sep ++ a.
Proof.
  induction cs as [|c [|c' cs] IH]; intros H; [contradiction | reflexivity |].
  change (join sep ((c :: c' :: cs) ++ [a]))
    with (c ++ sep ++ join sep ((c' :: cs) ++ [a])).
  rewrite IH by discriminate.
  change (join sep (c :: c' :: cs)) with (c ++ sep ++ join sep (c' :: cs)).
  now rewrite <- !app_assoc.
Qed.

Lemma join_last_app (sep : str) (cs : list str) (a b : str) :
  join sep (cs ++ [a ++ b]) = join sep (cs ++ [a]) ++ b.
Proof.
  induction cs as [|c cs IH]; [reflexivity|].
  destruct cs as [|c' cs].
  - simpl. now rewrite <- !app_assoc.
  - change (join sep ((c :: c' :: cs) ++ [a ++ b]))
      with (c ++ sep ++ join sep ((c' :: cs) ++ [a ++ b])).
    rewrite IH.
    change (join sep ((c :: c' :: cs) ++ [a]))
      with (c ++ sep ++ join sep ((c' :: cs) ++ [a])).
    now rewrite <- !app_assoc.
Qed.

Lemma extend_app (a b : str) (ls : list str) :
  extend (a ++ b) ls = a ++ extend b ls.
Proof.
  revert b. induction ls as [|l ls IH]; intros b; [reflexivity|].
  unfold extend in *. cbn [fold_left]. rewrite <- app_assoc. apply IH.
Qed.

Lemma join_extend (l0 : str) (rest : list str) :
  join [newline] (l0 :: rest) = extend l0 rest.
Proof.
  revert l0. induction rest as [|l1 rest IH]; intros l0; [reflexivity|].
  change (join [newline] (l0 :: l1 :: rest))
    with (l0 ++ newline :: join [newline] (l1 :: rest)).
  rewrite IH.
  change (extend l0 (l1 :: rest)) with (extend (l0 ++ [newline] ++ l1) rest).
  now rewrite !extend_app.
Qed.

Lemma length_extend (pre : str) (ls : list str) :
  length pre <= length (extend pre ls).
Proof.
  revert pre. induction ls as [|l ls IH]; intros pre; [apply Nat.le_refl|].
  change (extend pre (l :: ls)) with (extend (pre ++ newline :: l) ls).
  etransitivity; [|apply IH]. rewrite length_app. lia.
Qed.

Lemma all_newlines_blank (w : str) : all_newlines w = true -> blank w = true.
Proof.
  unfold all_newlines, blank. rewrite !forallb_forall.
  intros H c Hc. apply H in Hc. apply N.eqb_eq in Hc. now subst c.
Qed.

Lemma all_newlines_app (a b : str) :
  all_newlines (a ++ b) = all_newlines a && all_newlines b.
Proof. apply forallb_app. Qed.

(** *** The chunks are stripped *)

Lemma flush_all (Q : str -> Prop) (st : chunker) :
  (forall s, Q (strip s)) -> Forall Q (fst st) -> Forall Q (flush st).
Proof.
  intros HQ H. destruct st as [chunks cur]. unfold flush. cbn [fst] in H.
  destruct (truthy cur); [|assumption].
  apply Forall_app. split; [assumption | constructor; [apply HQ | constructor]].
Qed.

Lemma fold_split_step_all (Q : str -> Prop) (lines : list str) (st : chunker) :
  (forall s, Q (strip s)) ->
  Forall Q (fst st) -> Forall Q (fst (fold_left split_step lines st)).
Proof.
  intros HQ. revert st. induction lines as [|l lines IH]; intros st H; [assumption|].
  cbn [fold_left]. apply IH. unfold split_step.
  destruct (MAX_DISCORD_LENGTH <? length (snd st) + length l + 1); cbn [fst].
  - now apply flush_all.
  - assumption.
Qed.

Lemma chunk_lines_all (Q : str -> Prop) (lines : list str) :
  (forall s, Q (strip s)) -> Forall Q (chunk_lines lines).
Proof.
  intros HQ. apply flush_all; [assumption|].
  apply fold_split_step_all; [assumption | constructor].
Qed.

(** *** No more chunks than lines *)

Lemma length_flush (st : chunker) : length (flush st) = held st.
Proof.
  destruct st as [chunks cur]. unfold flush, held. cbn [fst snd].
  destruct (truthy cur); [rewrite length_app; simpl; lia | lia].
Qed.

Lemma held_split_step (st : chunker) (line : str) :
  held (split_step st line) <= held st + 1.
Proof.
  unfold split_step.
  destruct (MAX_DISCORD_LENGTH <? length (snd st) + length line + 1).
  - unfold held at 1. cbn [fst snd]. rewrite length_flush.
    destruct (truthy line); lia.
  - unfold held. cbn [fst snd].
    destruct (truthy (snd st)); [|destruct (truthy line)]; cbn [truthy]; try lia.
    destruct (snd st ++ newline :: line) eqn:E; cbn [truthy]; lia.
Qed.

Lemma held_fold (lines : list str) (st : chunker) :
  held (fold_left split_step lines st) <= held st + length lines.
Proof.
  revert st. induction lines as [|l lines IH]; intros st; simpl; [lia|].
  etransitivity; [apply IH|]. pose proof (held_split_step st l). lia.
Qed.

(** Once something is held, something stays held; a line that is not empty
    is held. *)
Lemma held_stays (st : chunker) (line : str) :
  1 <= held st \/ truthy line = true -> 1 <= held (split_step st line).
Proof.
  intros H. unfold split_step.
  destruct (MAX_DISCORD_LENGTH <? length (snd st) + length line + 1).
  - unfold held at 1. cbn [fst snd]. rewrite length_flush.
    destruct H as [H | ->]; lia.
  - unfold held in *. cbn [fst snd].
    destruct (truthy (snd st)) eqn:E.
    + destruct (snd st) as [|c cur]; [discriminate|]. cbn [app truthy]. lia.
    + destruct H as [H | ->]; lia.
Qed.

Lemma held_fold_stays (lines : list str) (st : chunker) :
  1 <= held st -> 1 <= held (fold_left split_step lines st).
Proof.
  revert st. induction lines as [|l lines IH]; intros st H; [assumption|].
  cbn [fold_left]. apply IH, held_stays. now left.
Qed.

Lemma held_fold_line (lines : list str) (st : chunker) :
  Exists (fun l => truthy l = true) lines ->
  1 <= held (fold_left split_step lines st).
Proof.
  intros H. revert st. induction H as [l lines Hl | l lines _ IH]; intros st.
  - cbn [fold_left]. apply held_fold_stays, held_stays. now right.
  - cbn [fold_left]. apply IH.
Qed.

Lemma fold_empty_lines (lines : list str) :
  Forall (fun l => truthy l = false) lines ->
  fold_left split_step lines ([], []) = ([], []).
Proof.
  induction 1 as [|l lines Hl _ IH]; [reflexivity|].
  cbn [fold_left]. rewrite split_step_first.
  destruct l; [exact IH | discriminate].
Qed.

Lemma split_all_newlines (m : str) :
  all_newlines m = true ->
  Forall (fun l => truthy l = false) (split newline m).
Proof.
  induction m as [|c m IH]; intros H.
  - repeat constructor.
  - simpl in H. apply andb_prop in H as [Hc Hm]. simpl. rewrite Hc.
    constructor; [reflexivity | now apply IH].
Qed.

Lemma join_empty_lines (lines : list str) :
  Forall (fun l => truthy l = false) lines ->
  all_newlines (join [newline] lines) = true.
Proof.
  induction 1 as [|l lines Hl H IH]; [reflexivity|].
  destruct l; [|discriminate].
  destruct lines as [|l' lines]; [reflexivity|].
  change (join [newline] ([] :: l' :: lines))
    with (newline :: join [newline] (l' :: lines)).
  simpl. simpl in IH. now rewrite IH.
Qed.

Lemma lines_empty_or_not (lines : list str) :
  Forall (fun l => truthy l = false) lines \/
  Exists (fun l => truthy l = true) lines.
Proof.
  induction lines as [|l lines [IH | IH]].
  - left. constructor.
  - destruct (truthy l) eqn:E; [right; now constructor | left; now constructor].
  - right. now constructor 2.
Qed.

(** *** A message within the limit *)

Lemma split_step_fits (chunks : list str) (cur line : str) :
  length cur + length line + 1 <= MAX_DISCORD_LENGTH ->
  split_step (chunks, cur) line =
  (chunks, if truthy cur then cur ++ newline :: line else line).
Proof.
  intros H. unfold split_step. cbn [fst snd].
  destruct (Nat.ltb_spec MAX_DISCORD_LENGTH (length cur + length line + 1));
    [lia | reflexivity].
Qed.

Lemma short_fold (ls : list str) (cur pre w : str) :
  all_newlines w = true ->
  pre = w ++ cur ->
  length (extend pre ls) <= MAX_DISCORD_LENGTH ->
  exists w' cur',
    all_newlines w' = true /\
    extend pre ls = w' ++ cur' /\
    fold_left split_step ls ([], cur) = ([], cur').
Proof.
  revert cur pre w. induction ls as [|l ls IH]; intros cur pre w Hw Hpre Hlen.
  - now exists w, cur.
  - change (extend pre (l :: ls)) with (extend (pre ++ newline :: l) ls) in *.
    cbn [fold_left].
    destruct cur as [|c cur].
    + rewrite split_step_first.
      apply (IH l (pre ++ newline :: l) (w ++ [newline])).
      * rewrite all_newlines_app, Hw. reflexivity.
      * rewrite Hpre, app_nil_r, <- app_assoc. reflexivity.
      * assumption.
    + rewrite split_step_fits.
      2:{ pose proof (length_extend (pre ++ newline :: l) ls) as Hext.
          assert (Hp : length pre = length w + length (c :: cur))
            by (rewrite Hpre; apply length_app).
          rewrite length_app in Hext. simpl in Hext, Hp |- *. lia. }
      cbn [truthy].
      apply (IH ((c :: cur) ++ newline :: l) (pre ++ newline :: l) w).
      * assumption.
      * rewrite Hpre, <- app_assoc. reflexivity.
      * assumption.
Qed.

Lemma split_step_over (chunks : list str) (cur line : str) :
  MAX_DISCORD_LENGTH < length cur + length line + 1 ->
  split_step (chunks, cur) line = (flush (chunks, cur), line).
Proof.
  intros H. unfold split_step. cbn [fst snd].
  destruct (Nat.ltb_spec MAX_DISCORD_LENGTH (length cur + length line + 1));
    [reflexivity | lia].
Qed.

(** *** Tidy lines *)

Lemma flush_truthy (chunks : list str) (cur : str) :
  truthy cur = true -> flush (chunks, cur) = chunks ++ [strip cur].
Proof. intros H. unfold flush. now rewrite H. Qed.

Lemma tidy_fold (ls : list str) (chunks : list str) (cur : str) :
  tidy cur = true ->
  Forall (fun l => tidy l = true) ls ->
  tidy (snd (fold_left split_step ls (chunks, cur))) = true /\
  join [newline] (fst (fold_left split_step ls (chunks, cur)) ++
                  [snd (fold_left split_step ls (chunks, cur))]) =
  extend (join [newline] (chunks ++ [cur])) ls.
Proof.
  intros Hcur Hls. revert chunks cur Hcur.
  induction Hls as [|l ls Hl _ IH]; intros chunks cur Hcur.
  - now split.
  - cbn [fold_left].
    change (extend (join [newline] (chunks ++ [cur])) (l :: ls))
      with (extend (join [newline] (chunks ++ [cur]) ++ newline :: l) ls).
    assert (Ht : truthy cur = true) by (destruct cur; [discriminate | reflexivity]).
    destruct (Nat.le_gt_cases (length cur + length l + 1) MAX_DISCORD_LENGTH)
      as [Hfit | Hover].
    2:{ rewrite (split_step_over _ _ _ Hover).
        rewrite (flush_truthy _ _ Ht), (tidy_strip _ Hcur).
        destruct (IH (chunks ++ [cur]) l Hl) as [H1 H2].
        split; [exact H1|]. rewrite H2. f_equal.
        apply join_snoc. now destruct chunks. }
    rewrite (split_step_fits _ _ _ Hfit), Ht. cbv iota.
    destruct (IH chunks (cur ++ newline :: l) (tidy_join _ _ Hcur Hl)) as [H1 H2].
    split; [exact H1|]. etransitivity; [exact H2|]. f_equal.
    apply join_last_app.
Qed.

(** ** Further properties of the chunking *)

(** X1.  Every chunk of [split_message] is stripped: it has no white space
    at its start or at its end, and stripping it again changes nothing. *)
Theorem chunks_are_stripped (message : str) :
  Forall (fun c => strip c = c) (split_message message).
Proof. apply chunk_lines_all. intros s. apply strip_idem. Qed.

(** X2.  [split_message] gives at most as many chunks as the message has
    lines. *)
Theorem chunk_count_bound (message : str) :
  length (split_message message) <= length (split newline message).
Proof.
  unfold split_message, chunk_lines. rewrite length_flush.
  apply (held_fold (split newline message) ([], [])).
Qed.

Lemma split_message_newlines (message : str) :
  all_newlines message = true -> split_message message = [].
Proof.
  intros H. unfold split_message, chunk_lines.
  now rewrite (fold_empty_lines _ (split_all_newlines _ H)).
Qed.

(** X3.  [split_message] gives no chunk at all exactly when the message is
    made of newlines only (the empty message is one of them). *)
Theorem no_chunks_iff_newlines (message : str) :
  split_message message = [] <-> all_newlines message = true.
Proof.
  split.
  - unfold split_message, chunk_lines. intros H.
    destruct (lines_empty_or_not (split newline message)) as [He | Hne].
    + rewrite <- (join_split newline message). now apply join_empty_lines.
    + apply (held_fold_line _ ([], [])) in Hne.
      rewrite <- length_flush, H in Hne. simpl in Hne. lia.
  - apply split_message_newlines.
Qed.

Lemma split_message_short (message : str) :
  length message <= MAX_DISCORD_LENGTH ->
  all_newlines message = false ->
  split_message message = [strip message].
Proof.
  intros Hlen Hnl. unfold split_message, chunk_lines.
  assert (Hj := join_split newline message).
  destruct (split newline message) as [|l0 rest] eqn:E;
    [now apply split_not_nil in E|].
  rewrite join_extend in Hj.
  cbn [fold_left]. rewrite split_step_first.
  destruct (short_fold rest l0 l0 [] eq_refl eq_refl) as (w & cur & Hw & Hext & Hfold).
  { now rewrite Hj. }
  rewrite Hfold. rewrite Hj in Hext.
  destruct cur as [|c cur].
  - rewrite app_nil_r in Hext. congruence.
  - rewrite flush_truthy by reflexivity.
    now rewrite Hext, (strip_app_blank_l _ _ (all_newlines_blank _ Hw)).
Qed.

(** X4.  A message of at most [MAX_DISCORD_LENGTH] characters that is not
    made of newlines only gives one chunk: the message, stripped. *)
Theorem short_message_one_chunk (message : str) :
  length message <= MAX_DISCORD_LENGTH ->
  all_newlines message = false ->
  split_message message = [strip message].
Proof. apply split_message_short. Qed.

Lemma short_message_one_chunk_witness :
  (length two_dates <= MAX_DISCORD_LENGTH /\ all_newlines two_dates = false) /\
  split_message two_dates = [strip two_dates].
Proof.
  assert (H1 : length two_dates <= MAX_DISCORD_LENGTH)
    by (apply Nat.leb_le; vm_compute; reflexivity).
  assert (H2 : all_newlines two_dates = false) by (vm_compute; reflexivity).
  split; [split; assumption|].
  exact (short_message_one_chunk two_dates H1 H2).
Defined.

(** X5.  When every line of the message is tidy (not empty, with no white
    space at its start or its end), the chunks joined by newlines are the
    message itself, character for character. *)
Theorem tidy_lines_round_trip (message : str) :
  Forall (fun l => tidy l = true) (split newline message) ->
  join [newline] (split_message message) = message.
Proof.
  intros H. unfold split_message, chunk_lines.
  assert (Hj := join_split newline message).
  destruct (split newline message) as [|l0 rest] eqn:E;
    [now apply split_not_nil in E|].
  inversion H as [|? ? H0 Hrest]; subst.
  cbn [fold_left]. rewrite split_step_first.
  destruct (tidy_fold rest [] l0 H0 Hrest) as [Ht Hjoin].
  destruct (fold_left split_step rest ([], l0)) as [chunks cur].
  cbn [fst snd] in *.
  rewrite flush_truthy by (destruct cur; [discriminate | reflexivity]).
  rewrite (tidy_strip _ Ht), Hjoin. simpl (join [newline] ([] ++ [l0])).
  now rewrite <- join_extend.
Qed.

Lemma tidy_lines_round_trip_witness :
  Forall (fun l => tidy l = true) (split newline two_dates) /\
  join [newline] (split_message two_dates) = two_dates.
Proof.
  assert (H : Forall (fun l => tidy l = true) (split newline two_dates))
    by (repeat constructor).
  split; [exact H|].
  exact (tidy_lines_round_trip two_dates H).
Defined.

(** ** More on one dispatch *)

Section MoreSteps.

Variable repr_str : str -> str.
Variable env : environ.
Variable world : outside.

Lemma for_each_replies (chunks : list str) (tr : trace) :
  reliable world ->
  for_each chunks (fun chunk => reply world (follow_up chunk)) tr =
  (Ok tt, tr ++ map (fun ch => Reply (follow_up ch)) chunks).
Proof.
  intros H. revert tr. induction chunks as [|c chunks IH]; intros tr.
  - simpl. now rewrite app_nil_r.
  - cbn [for_each map]. unfold reply at 1.
    rewrite (bind_ok _ _ _ _ _ (platform_ok world _ _ H)).
    rewrite IH, <- app_assoc. reflexivity.
Qed.

Lemma send_chunks_all (chunks : list str) (tr : trace) :
  reliable world ->
  chunks <> [] ->
  send_chunks world chunks tr = (Ok tt, tr ++ replies_of chunks).
Proof.
  intros H Hne. destruct chunks as [|c rest]; [contradiction|].
  unfold send_chunks.
  assert (E : try_except
                (bind (first_chunk (c :: rest))
                   (fun c0 => bind (reply world (first_reply c0)) (fun _ => ret false)))
                (except_NotFound true) tr =
              (Ok false, tr ++ [Reply (first_reply c)])).
  { unfold try_except, bind, first_chunk, ret, reply, platform. now rewrite H. }
  rewrite (bind_ok _ _ _ _ _ E).
  destruct rest as [|c' rest]; [reflexivity|].
  cbn [length Nat.ltb Nat.leb tl].
  erewrite try_except_ok; [|apply for_each_replies; assumption].
  now rewrite <- app_assoc.
Qed.

Lemma relay_chunks (r : response) (items : list (str * json)) (s : str) (tr : trace) :
  reliable world ->
  status r = 200%Z ->
  json_body r = Ok (JDict items) ->
  lookup (lit "formatted_dates") items = Some (JStr s) ->
  split_message s <> [] ->
  relay repr_str world r tr = (Ok tt, tr ++ replies_of (split_message s)).
Proof.
  intros H Hs Hj Hl Hne.
  rewrite (relay_formatted repr_str world r (JDict items) (JStr s) tr Hs Hj)
    by (cbn [get]; now rewrite Hl).
  unfold split_message_of. erewrite bind_ok; [|reflexivity].
  now apply send_chunks_all.
Qed.

(** What [relay] raises, it raises before any call. *)
Lemma relay_raise (r : response) (e : exn) (tr : trace) :
  (status r <> 200%Z /\ text r = Raise e) \/
  (status r = 200%Z /\ json_body r = Raise e) ->
  relay repr_str world r tr = (Raise e, tr).
Proof.
  intros [[Hs Ht] | [Hs Hj]]; unfold relay.
  - apply Z.eqb_neq in Hs. rewrite Hs. cbn [negb].
    unfold bind, lift. now rewrite Ht.
  - rewrite Hs. cbn [Z.eqb Pos.eqb negb]. unfold bind, lift. now rewrite Hj.
Qed.

Lemma relay_not_dict (r : response) (v : json) (tr : trace) :
  status r = 200%Z ->
  json_body r = Ok v ->
  (forall items, v <> JDict items) ->
  relay repr_str world r tr = (Raise (AttributeError v (lit "get")), tr).
Proof.
  intros Hs Hj Hv. unfold relay. rewrite Hs. cbn [Z.eqb Pos.eqb negb].
  unfold bind, lift. rewrite Hj.
  destruct v; try reflexivity. now destruct (Hv items).
Qed.

Lemma relay_not_str (r : response) (items : list (str * json)) (v : json) (tr : trace) :
  status r = 200%Z ->
  json_body r = Ok (JDict items) ->
  lookup (lit "formatted_dates") items = Some v ->
  (forall s, v <> JStr s) ->
  relay repr_str world r tr = (Raise (AttributeError v (lit "split")), tr).
Proof.
  intros Hs Hj Hl Hv.
  rewrite (relay_formatted repr_str world r (JDict items) v tr Hs Hj)
    by (cbn [get]; now rewrite Hl).
  unfold bind, split_message_of.
  destruct v; try reflexivity. now destruct (Hv s).
Qed.

Lemma failed_report (e : exn) (tr : trace) :
  reliable world ->
  failed world e tr = (Ok tt, tr ++ report (failure_text e)).
Proof.
  intros H. rewrite (failed_ok world e tr H). unfold report, failure_text.
  now destruct (exn_kind_of e).
Qed.

Lemma process_text_post_raise (t : str) (e : exn) (tr : trace) :
  reliable world ->
  http_post world (text_url env) (JsonText t (bearer env)) = Raise e ->
  process_text repr_str env world t tr =
  (Ok tt,
   tr ++ [AddReaction hourglass; HttpPost (text_url env) (JsonText t (bearer env))]
      ++ report (failure_text e)).
Proof.
  intros H Hp.
  unfold process_text, try_except, bind, add_reaction, platform, session_post.
  fold (text_url env). rewrite H, Hp.
  rewrite (failed_report _ _ H), <- !app_assoc. reflexivity.
Qed.

End MoreSteps.

(** ** Further properties of the relay pipelines *)

Section MorePipelines.

Variable repr_str : str -> str.
Variable env : environ.
Variable world : outside.

(** X6.  When the formatting API answers 200 with a text that gives
    chunks, each pipeline replies once per chunk, in the order of the
    chunks: the first chunk with the disclaimer, every other one as a
    follow-up; it sets no failure marker and does nothing else. *)
Theorem chunks_replied_in_order (r : response) (items : list (str * json))
        (s : str) (tr : trace) :
  reliable world ->
  status r = 200%Z ->
  json_body r = Ok (JDict items) ->
  lookup (lit "formatted_dates") items = Some (JStr s) ->
  split_message s <> [] ->
  (forall t,
      http_post world (text_url env) (JsonText t (bearer env)) = Ok r ->
      process_text repr_str env world t tr =
      (Ok tt,
       tr ++ [AddReaction hourglass;
              HttpPost (text_url env) (JsonText t (bearer env))]
          ++ replies_of (split_message s))) /\
  (forall a data,
      attachment_read world a = Ok data ->
      http_post world (image_url env)
                (FormFile data (filename a) (content_type a)) = Ok r ->
      process_image repr_str env world a tr =
      (Ok tt,
       tr ++ [AddReaction hourglass; ReadAttachment a;
              HttpPost (image_url env)
                       (FormFile data (filename a) (content_type a))]
          ++ replies_of (split_message s))) /\
  (forall url d data,
      http_get world url = Ok d ->
      d_status d = 200%Z ->
      d_read d = Ok data ->
      http_post world (image_url env) (forwarded url d data) = Ok r ->
      process_image_url repr_str env world url tr =
      (Ok tt,
       tr ++ [AddReaction hourglass; HttpGet url;
              HttpPost (image_url env) (forwarded url d data)]
          ++ replies_of (split_message s))).
Proof.
  intros H Hs Hj Hl Hne. split; [|split].
  - intros t Hp. rewrite (process_text_relay _ _ _ _ _ _ H Hp).
    rewrite (relay_chunks _ _ _ _ _ _ H Hs Hj Hl Hne). cbn [settle].
    now rewrite <- app_assoc.
  - intros a data Hr Hp. rewrite (process_image_relay _ _ _ _ _ _ _ H Hr Hp).
    rewrite (relay_chunks _ _ _ _ _ _ H Hs Hj Hl Hne). cbn [settle].
    now rewrite <- app_assoc.
  - intros url d data Hg Hd Hr Hp.
    rewrite (process_image_url_relay _ _ _ _ _ _ _ _ H Hg Hd Hr Hp).
    rewrite (relay_chunks _ _ _ _ _ _ H Hs Hj Hl Hne). cbn [settle].
    now rewrite <- app_assoc.
Qed.

(** X7.  When the formatting API answers the text pipeline with 200 and a
    text of at most [MAX_DISCORD_LENGTH] characters that is not made of
    newlines only, the pipeline sends one reply: the text, stripped, in
    the code block with the disclaimer. *)
Theorem short_result_one_reply (t : str) (r : response) (items : list (str * json))
        (s : str) (tr : trace) :
  reliable world ->
  http_post world (text_url env) (JsonText t (bearer env)) = Ok r ->
  status r = 200%Z ->
  json_body r = Ok (JDict items) ->
  lookup (lit "formatted_dates") items = Some (JStr s) ->
  length s <= MAX_DISCORD_LENGTH ->
  all_newlines s = false ->
  process_text repr_str env world t tr =
  (Ok tt,
   tr ++ [AddReaction hourglass;
          HttpPost (text_url env) (JsonText t (bearer env));
          Reply (first_reply (strip s))]).
Proof.
  intros H Hp Hs Hj Hl Hlen Hnl.
  assert (E := split_message_short s Hlen Hnl).
  rewrite (process_text_relay _ _ _ _ _ _ H Hp).
  rewrite (relay_chunks repr_str world r items s _ H Hs Hj Hl)
    by (rewrite E; discriminate).
  rewrite E. cbn [settle replies_of map]. now rewrite <- app_assoc.
Qed.

(** X8.  When the request of the text pipeline to the formatting API
    raises (a time-out, a refused connection), the pipeline clears the
    markers, sets the failure marker and replies once: with the fixed
    time-out message for a time-out, with ["Error: "] and the message of the
    exception otherwise.  It makes no second request. *)
Theorem text_request_failure (t : str) (e : exn) (tr : trace) :
  reliable world ->
  http_post world (text_url env) (JsonText t (bearer env)) = Raise e ->
  process_text repr_str env world t tr =
  (Ok tt,
   tr ++ [AddReaction hourglass;
          HttpPost (text_url env) (JsonText t (bearer env));
          ClearReactions; AddReaction cross_mark;
          Reply (match exn_kind_of e with
                 | TimeoutError => lit "Error: Request timed out. Please try again."
                 | _ => lit "Error: " ++ exn_str e
                 end)]).
Proof.
  intros H Hp. rewrite (process_text_post_raise repr_str env world t e tr H Hp).
  unfold report, failure_text. reflexivity.
Qed.

(** X9.  In the attachment pipeline, when reading the attachment raises,
    no request is sent to the formatting API and the failure is reported;
    when the request raises, the failure is reported after the one
    request. *)
Theorem attachment_failures (a : attachment) (e : exn) (tr : trace) :
  reliable world ->
  (attachment_read world a = Raise e ->
   process_image repr_str env world a tr =
   (Ok tt,
    tr ++ [AddReaction hourglass; ReadAttachment a;
           ClearReactions; AddReaction cross_mark;
           Reply (failure_text e)])) /\
  (forall data,
      attachment_read world a = Ok data ->
      http_post world (image_url env)
                (FormFile data (filename a) (content_type a)) = Raise e ->
      process_image repr_str env world a tr =
      (Ok tt,
       tr ++ [AddReaction hourglass; ReadAttachment a;
              HttpPost (image_url env)
                       (FormFile data (filename a) (content_type a));
              ClearReactions; AddReaction cross_mark;
              Reply (failure_text e)])).
Proof.
  intros H. split.
  - intros Hr.
    unfold process_image, try_except, bind, add_reaction, platform, read.
    rewrite H, Hr, (failed_report _ _ _ H), <- !app_assoc. reflexivity.
  - intros data Hr Hp.
    unfold process_image, try_except, bind, add_reaction, platform, read,
      session_post.
    fold (image_url env).
    rewrite H, Hr, Hp, (failed_report _ _ _ H), <- !app_assoc. reflexivity.
Qed.

(** X10.  In the image-URL pipeline, when the download answers with a
    status other than 200, nothing is sent to the formatting API: the
    failure marker is set and the reply names the status,
    ["Error: Failed to download image: HTTP <status>"]. *)
Theorem download_refused (url : str) (d : download) (tr : trace) :
  reliable world ->
  http_get world url = Ok d ->
  d_status d <> 200%Z ->
  process_image_url repr_str env world url tr =
  (Ok tt,
   tr ++ [AddReaction hourglass; HttpGet url;
          ClearReactions; AddReaction cross_mark;
          Reply (lit "Error: Failed to download image: HTTP " ++ of_Z (d_status d))]).
Proof.
  intros H Hg Hs. apply Z.eqb_neq in Hs.
  unfold process_image_url, try_except, bind, add_reaction, platform,
    session_get, raise.
  rewrite H, Hg, Hs. cbn [negb].
  rewrite (failed_report _ _ _ H), <- !app_assoc. reflexivity.
Qed.

(** X11.  In the image-URL pipeline, when the download raises, or its
    body cannot be read, nothing is sent to the formatting API and the
    failure is reported. *)
Theorem download_failures (url : str) (e : exn) (tr : trace) :
  reliable world ->
  http_get world url = Raise e \/
  (exists d, http_get world url = Ok d /\ d_status d = 200%Z /\ d_read d = Raise e) ->
  process_image_url repr_str env world url tr =
  (Ok tt,
   tr ++ [AddReaction hourglass; HttpGet url;
          ClearReactions; AddReaction cross_mark;
          Reply (failure_text e)]).
Proof.
  intros H [Hg | (d & Hg & Hs & Hr)];
    unfold process_image_url, try_except, bind, add_reaction, platform,
      session_get, lift;
    rewrite H, Hg.
  - rewrite (failed_report _ _ _ H), <- !app_assoc. reflexivity.
  - rewrite Hs. cbn [Z.eqb Pos.eqb negb]. rewrite Hr.
    rewrite (failed_report _ _ _ H), <- !app_assoc. reflexivity.
Qed.

(** X12.  A 200 answer that the text pipeline cannot use is reported as a
    failure, with no formatted reply: a body that does not parse, with the
    message of the exception; a JSON value that is not an object, with the
    attribute error on [get]; a [formatted_dates] that is not a string
    (null, a number, a list), with the attribute error on [split]. *)
Theorem unusable_answer (t : str) (r : response) (tr : trace) :
  reliable world ->
  http_post world (text_url env) (JsonText t (bearer env)) = Ok r ->
  status r = 200%Z ->
  (forall e,
      json_body r = Raise e ->
      process_text repr_str env world t tr =
      (Ok tt,
       tr ++ [AddReaction hourglass;
              HttpPost (text_url env) (JsonText t (bearer env));
              ClearReactions; AddReaction cross_mark;
              Reply (failure_text e)])) /\
  (forall v,
      json_body r = Ok v ->
      (forall items, v <> JDict items) ->
      process_text repr_str env world t tr =
      (Ok tt,
       tr ++ [AddReaction hourglass;
              HttpPost (text_url env) (JsonText t (bearer env));
              ClearReactions; AddReaction cross_mark;
              Reply (lit "Error: '" ++ type_name v ++
                     lit "' object has no attribute 'get'")])) /\
  (forall items v,
      json_body r = Ok (JDict items) ->
      lookup (lit "formatted_dates") items = Some v ->
      (forall s, v <> JStr s) ->
      process_text repr_str env world t tr =
      (Ok tt,
       tr ++ [AddReaction hourglass;
              HttpPost (text_url env) (JsonText t (bearer env));
              ClearReactions; AddReaction cross_mark;
              Reply (lit "Error: '" ++ type_name v ++
                     lit "' object has no attribute 'split'")])).
Proof.
  intros H Hp Hs. split; [|split].
  - intros e Hj. rewrite (process_text_relay _ _ _ _ _ _ H Hp).
    rewrite (relay_raise repr_str world r e) by (right; now split).
    cbn [settle]. rewrite (failed_report _ _ _ H), <- app_assoc. reflexivity.
  - intros v Hj Hv. rewrite (process_text_relay _ _ _ _ _ _ H Hp).
    rewrite (relay_not_dict repr_str world r v _ Hs Hj Hv).
    cbn [settle]. rewrite (failed_report _ _ _ H), <- !app_assoc. reflexivity.
  - intros items v Hj Hl Hv. rewrite (process_text_relay _ _ _ _ _ _ H Hp).
    rewrite (relay_not_str repr_str world r items v _ Hs Hj Hl Hv).
    cbn [settle]. rewrite (failed_report _ _ _ H), <- !app_assoc. reflexivity.
Qed.

(** X13.  When the formatting API answers the text pipeline with 200 and a
    text made of newlines only, there is no chunk to reply with: the
    pipeline ends like a failure, with the reply
    ["Error: list index out of range"]. *)
Theorem newline_result_fails (t : str) (r : response) (items : list (str * json))
        (s : str) (tr : trace) :
  reliable world ->
  http_post world (text_url env) (JsonText t (bearer env)) = Ok r ->
  status r = 200%Z ->
  json_body r = Ok (JDict items) ->
  lookup (lit "formatted_dates") items = Some (JStr s) ->
  all_newlines s = true ->
  process_text repr_str env world t tr =
  (Ok tt,
   tr ++ [AddReaction hourglass;
          HttpPost (text_url env) (JsonText t (bearer env));
          ClearReactions; AddReaction cross_mark;
          Reply (lit "Error: list index out of range")]).
Proof.
  intros H Hp Hs Hj Hl Hnl.
  rewrite (process_text_relay _ _ _ _ _ _ H Hp).
  rewrite (relay_no_chunks repr_str world r items s _ Hs Hj Hl
             (split_message_newlines s Hnl)).
  cbn [settle]. rewrite (failed_report _ _ _ H), <- app_assoc. reflexivity.
Qed.

(** X14.  When the first reply of the text pipeline finds the message gone
    ([discord.NotFound]), the pipeline stops there without an exception: no
    follow-up is sent for the other chunks and no failure marker is set. *)
Theorem reply_target_gone (t : str) (r : response) (items : list (str * json))
        (s : str) (e : exn) (tr : trace) :
  platform_fault world (length tr) = None ->
  platform_fault world (length tr + 2) = Some e ->
  exn_kind_of e = NotFound ->
  http_post world (text_url env) (JsonText t (bearer env)) = Ok r ->
  status r = 200%Z ->
  json_body r = Ok (JDict items) ->
  lookup (lit "formatted_dates") items = Some (JStr s) ->
  split_message s <> [] ->
  process_text repr_str env world t tr =
  (Ok tt,
   tr ++ [AddReaction hourglass;
          HttpPost (text_url env) (JsonText t (bearer env));
          Reply (first_reply (hd [] (split_message s)))]).
Proof.
  intros H0 H2 Hk Hp Hs Hj Hl Hne.
  unfold process_text, try_except, bind, add_reaction, platform, session_post.
  fold (text_url env). rewrite H0, Hp.
  rewrite (relay_formatted repr_str world r (JDict items) (JStr s) _ Hs Hj)
    by (cbn [get]; now rewrite Hl).
  unfold bind, split_message_of, ret, send_chunks, try_except, bind, first_chunk.
  destruct (split_message s) as [|c rest]; [contradiction|].
  unfold ret, reply, platform.
  replace (length ((tr ++ [AddReaction hourglass]) ++
                   [HttpPost (text_url env) (JsonText t (bearer env))]))
    with (length tr + 2) by (rewrite !length_app; simpl; lia).
  rewrite H2. unfold except_NotFound. rewrite Hk. unfold ret.
  cbn [hd]. now rewrite <- !app_assoc.
Qed.

End MorePipelines.

(** ** What a dispatch adds to the trace *)

Section Adds.

Variable p : event -> bool.

Lemma count_app (a b : trace) : count p (a ++ b) = count p a + count p b.
Proof. unfold count. now rewrite filter_app, length_app. Qed.

Lemma adds_ret {A} (a : A) : adds_at_most p 0 (ret a).
Proof. intros tr. exists []. simpl. now rewrite app_nil_r. Qed.

Lemma adds_raise {A} (e : exn) : adds_at_most p 0 (@raise A e).
Proof. intros tr. exists []. simpl. now rewrite app_nil_r. Qed.

Lemma adds_lift {A} (r : result A) : adds_at_most p 0 (lift r).
Proof. intros tr. exists []. simpl. now rewrite app_nil_r. Qed.

Lemma adds_weaken {A} (a b : nat) (m : trace -> result A * trace) :
  a <= b -> adds_at_most p a m -> adds_at_most p b m.
Proof.
  intros Hab H tr. destruct (H tr) as (evs & E & Hc). exists evs.
  split; [exact E | lia].
Qed.

Lemma adds_bind {A B} (a b : nat) (m : M A) (f : A -> M B) :
  adds_at_most p a m ->
  (forall x, adds_at_most p b (f x)) ->
  adds_at_most p (a + b) (bind m f).
Proof.
  intros Hm Hf tr. unfold bind.
  destruct (Hm tr) as (evs & E & Hc).
  destruct (m tr) as [[x | e] tr']; cbn [snd] in E; subst tr'.
  - destruct (Hf x (tr ++ evs)) as (evs' & E' & Hc').
    exists (evs ++ evs'). rewrite E', app_assoc, count_app. split; [reflexivity | lia].
  - exists evs. cbn [snd]. split; [reflexivity | lia].
Qed.

Lemma adds_try_except {A} (a b : nat) (body : M A) (h : exn -> M A) :
  adds_at_most p a body ->
  (forall e, adds_at_most p b (h e)) ->
  adds_at_most p (a + b) (try_except body h).
Proof.
  intros Hm Hh tr. unfold try_except.
  destruct (Hm tr) as (evs & E & Hc).
  destruct (body tr) as [[x | e] tr']; cbn [snd] in E; subst tr'.
  - exists evs. cbn [snd]. split; [reflexivity | lia].
  - destruct (Hh e (tr ++ evs)) as (evs' & E' & Hc').
    exists (evs ++ evs'). rewrite E', app_assoc, count_app. split; [reflexivity | lia].
Qed.

Lemma adds_for_each {A} (xs : list A) (body : A -> M unit) :
  (forall x, adds_at_most p 0 (body x)) ->
  adds_at_most p 0 (for_each xs body).
Proof.
  intros H. induction xs as [|x xs IH]; cbn [for_each].
  - apply adds_ret.
  - apply adds_bind with (a := 0) (b := 0); [apply H | intros _; exact IH].
Qed.

Variable world : outside.
Variable repr_str : str -> str.
Variable env : environ.

(** The bounds for one request of each sort. *)
Variables np ng : nat.
Hypothesis p_post : forall url pl, count p [HttpPost url pl] <= np.
Hypothesis p_get : forall url, count p [HttpGet url] <= ng.
Hypothesis p_add : forall emoji, p (AddReaction emoji) = false.
Hypothesis p_clear : p ClearReactions = false.
Hypothesis p_reply : forall body, p (Reply body) = false.
Hypothesis p_read : forall a, p (ReadAttachment a) = false.

Lemma adds_add_reaction (emoji : str) : adds_at_most p 0 (add_reaction world emoji).
Proof.
  intros tr. exists [AddReaction emoji]. split; [reflexivity|].
  unfold count. simpl. now rewrite p_add.
Qed.

Lemma adds_clear_reactions : adds_at_most p 0 (clear_reactions world).
Proof.
  intros tr. exists [ClearReactions]. split; [reflexivity|].
  unfold count. simpl. now rewrite p_clear.
Qed.

Lemma adds_reply (body : str) : adds_at_most p 0 (reply world body).
Proof.
  intros tr. exists [Reply body]. split; [reflexivity|].
  unfold count. simpl. now rewrite p_reply.
Qed.

Lemma adds_read (a : attachment) : adds_at_most p 0 (read world a).
Proof.
  intros tr. exists [ReadAttachment a]. split; [reflexivity|].
  unfold count. simpl. now rewrite p_read.
Qed.

Lemma adds_session_post (url : str) (pl : payload) :
  adds_at_most p np (session_post world url pl).
Proof. intros tr. exists [HttpPost url pl]. split; [reflexivity | apply p_post]. Qed.

Lemma adds_session_get (url : str) : adds_at_most p ng (session_get world url).
Proof. intros tr. exists [HttpGet url]. split; [reflexivity | apply p_get]. Qed.

Lemma adds_except_NotFound {A} (a : A) (e : exn) :
  adds_at_most p 0 (except_NotFound a e).
Proof.
  unfold except_NotFound. destruct (exn_kind_of e);
    [apply adds_raise | apply adds_ret | apply adds_raise].
Qed.

Lemma adds_report (body : str) :
  adds_at_most p 0
    (bind (clear_reactions world)
       (fun _ => bind (add_reaction world cross_mark)
                   (fun _ => reply world body))).
Proof.
  apply adds_bind with (a := 0) (b := 0); [apply adds_clear_reactions | intros _].
  apply adds_bind with (a := 0) (b := 0); [apply adds_add_reaction | intros _].
  apply adds_reply.
Qed.

Lemma adds_failed (e : exn) : adds_at_most p 0 (failed world e).
Proof.
  unfold failed. destruct (exn_kind_of e);
    (apply adds_try_except with (a := 0) (b := 0);
     [apply adds_report | intros e'; apply adds_except_NotFound]).
Qed.

Lemma adds_send_chunks (chunks : list str) :
  adds_at_most p 0 (send_chunks world chunks).
Proof.
  unfold send_chunks.
  apply adds_bind with (a := 0) (b := 0).
  - apply adds_try_except with (a := 0) (b := 0); [|intros e; apply adds_except_NotFound].
    apply adds_bind with (a := 0) (b := 0).
    + unfold first_chunk. destruct chunks; [apply adds_raise | apply adds_ret].
    + intros c. apply adds_bind with (a := 0) (b := 0); [apply adds_reply | intros _].
      apply adds_ret.
  - intros [|]; [apply adds_ret|].
    destruct (1 <? length chunks); [|apply adds_ret].
    apply adds_try_except with (a := 0) (b := 0); [|intros e; apply adds_except_NotFound].
    apply adds_for_each. intros c. apply adds_reply.
Qed.

Lemma adds_relay (r : response) : adds_at_most p 0 (relay repr_str world r).
Proof.
  unfold relay. destruct (negb (status r =? 200)%Z).
  - apply adds_bind with (a := 0) (b := 0); [apply adds_lift | intros error_text].
    apply adds_bind with (a := 0) (b := 0); [|intros d; apply adds_report].
    apply adds_try_except with (a := 0) (b := 0); [|intros e; apply adds_ret].
    apply adds_bind with (a := 0) (b := 0); [apply adds_lift | intros j; apply adds_lift].
  - apply adds_bind with (a := 0) (b := 0); [apply adds_lift | intros j].
    apply adds_bind with (a := 0) (b := 0); [apply adds_lift | intros d].
    apply adds_bind with (a := 0) (b := 0); [|intros c; apply adds_send_chunks].
    unfold split_message_of. destruct d; try apply adds_raise. apply adds_ret.
Qed.

Lemma adds_process_text (t : str) :
  adds_at_most p (np + ng) (process_text repr_str env world t).
Proof.
  apply adds_weaken with (a := (0 + (np + 0)) + 0); [lia|].
  unfold process_text.
  apply adds_try_except; [|apply adds_failed].
  apply adds_bind; [apply adds_add_reaction | intros _].
  apply adds_bind; [apply adds_session_post | intros r; apply adds_relay].
Qed.

Lemma adds_process_image (a : attachment) :
  adds_at_most p (np + ng) (process_image repr_str env world a).
Proof.
  apply adds_weaken with (a := (0 + (0 + (np + 0))) + 0); [lia|].
  unfold process_image.
  apply adds_try_except; [|apply adds_failed].
  apply adds_bind; [apply adds_add_reaction | intros _].
  apply adds_bind; [apply adds_read | intros data].
  apply adds_bind; [apply adds_session_post | intros r; apply adds_relay].
Qed.

Lemma adds_process_image_url (url : str) :
  adds_at_most p (np + ng) (process_image_url repr_str env world url).
Proof.
  apply adds_weaken with (a := (0 + (ng + (0 + (np + 0)))) + 0); [lia|].
  unfold process_image_url.
  apply adds_try_except; [|apply adds_failed].
  apply adds_bind; [apply adds_add_reaction | intros _].
  apply adds_bind; [apply adds_session_get | intros d].
  destruct (negb (d_status d =? 200)%Z).
  - apply adds_weaken with (a := 0); [lia | apply adds_raise].
  - apply adds_bind; [apply adds_lift | intros data].
    apply adds_bind; [apply adds_session_post | intros r; apply adds_relay].
Qed.

Lemma adds_on_message (self_id : Z) (m : message) :
  adds_at_most p (np + ng) (on_message repr_str env world self_id m).
Proof.
  unfold on_message.
  destruct (negb (mentioned m)); [apply adds_weaken with (a := 0); [lia | apply adds_ret]|].
  destruct (author m =? self_id)%Z;
    [apply adds_weaken with (a := 0); [lia | apply adds_ret]|].
  match goal with |- context [if ?c then _ else _] => destruct c end.
  - apply adds_weaken with (a := 0); [lia | apply adds_reply].
  - apply adds_weaken with (a := 0 + ((np + ng) + 0)); [lia|].
    apply adds_bind; [apply adds_add_reaction | intros _].
    apply adds_try_except; [|intros e; apply adds_report].
    apply adds_weaken with (a := 0 + (np + ng)); [lia|].
    apply adds_bind; [apply adds_lift | intros k].
    destruct k; cbn [run].
    + apply adds_process_image.
    + apply adds_process_image_url.
    + apply adds_process_text.
Qed.

End Adds.

(** X15.  Whatever the outside answers and however the platform fails, one
    dispatch only adds to what was done before, and it makes at most one
    request to the formatting API and at most one download: nothing is
    tried a second time. *)
Theorem no_second_request (repr_str : str -> str) (env : environ) (world : outside)
        (self_id : Z) (m : message) (tr : trace) :
  exists evs,
    snd (on_message repr_str env world self_id m tr) = tr ++ evs /\
    count is_post evs <= 1 /\
    count is_get evs <= 1.
Proof.
  destruct (adds_on_message is_post world repr_str env 1 0
              (fun _ _ => Nat.le_refl 1) (fun _ => Nat.le_0_l 0)
              (fun _ => eq_refl) eq_refl (fun _ => eq_refl) (fun _ => eq_refl)
              self_id m tr) as (evs & E & Hposts).
  destruct (adds_on_message is_get world repr_str env 0 1
              (fun _ _ => Nat.le_0_l 0) (fun _ => Nat.le_refl 1)
              (fun _ => eq_refl) eq_refl (fun _ => eq_refl) (fun _ => eq_refl)
              self_id m tr) as (evs' & E' & Hgets).
  rewrite E in E'. apply app_inv_head in E'. subst evs'.
  exists evs. repeat split; [exact E | lia | lia].
Qed.

(** ** Every dispatch ends in a reply *)

Section Ends.

Variable repr_str : str -> str.
Variable env : environ.
Variable world : outside.
Hypothesis H : reliable world.

Lemma replies_of_last (chunks : list str) :
  chunks <> [] -> exists evs body, replies_of chunks = evs ++ [Reply body].
Proof.
  destruct chunks as [|c rest]; [contradiction|]. intros _.
  destruct rest as [|c' rest].
  - now exists [], (first_reply c).
  - destruct (exists_last (l := c' :: rest)) as (r & x & E); [discriminate|].
    cbn [replies_of]. rewrite E, map_app.
    exists (Reply (first_reply c) :: map (fun ch => Reply (follow_up ch)) r),
           (follow_up x).
    reflexivity.
Qed.

Lemma ends_in_reply_more (res : result unit * trace) (tr : trace) (pre : trace) :
  ends_in_reply res (tr ++ pre) -> ends_in_reply res tr.
Proof.
  intros (evs & body & E). exists (pre ++ evs), body.
  now rewrite E, <- !app_assoc.
Qed.

Lemma ends_in_reply_report (tr : trace) (body : str) :
  ends_in_reply (Ok tt, tr ++ report body) tr.
Proof. now exists [ClearReactions; AddReaction cross_mark], body. Qed.

(** [relay] ends in a reply, or raises before any call. *)
Lemma relay_outcome (r : response) (tr : trace) :
  ends_in_reply (relay repr_str world r tr) tr \/
  exists e, relay repr_str world r tr = (Raise e, tr).
Proof.
  destruct (Z.eq_dec (status r) 200) as [Hs | Hs].
  - destruct (json_body r) as [v | e] eqn:Hj.
    2:{ right. exists e. apply relay_raise. right. now split. }
    assert (Hd : (exists items, v = JDict items) \/ forall items, v <> JDict items).
    { destruct v; try (right; discriminate). left. now exists items. }
    destruct Hd as [[items ->] | Hd].
    2:{ right. eexists. apply relay_not_dict; eassumption. }
    destruct (lookup (lit "formatted_dates") items) as [d|] eqn:Hl.
    2:{ left. rewrite (relay_no_dates repr_str world r items tr H Hs Hj Hl).
        now exists [], (first_reply no_dates). }
    assert (Hstr : (exists s, d = JStr s) \/ forall s, d <> JStr s).
    { destruct d; try (right; discriminate). left. now exists s. }
    destruct Hstr as [[s ->] | Hstr].
    2:{ right. eexists. apply (relay_not_str repr_str world r items d); eassumption. }
    destruct (split_message s) as [|c rest] eqn:Hc.
    + right. eexists. apply (relay_no_chunks repr_str world r items s); eassumption.
    + left. rewrite (relay_chunks repr_str world r items s tr H Hs Hj Hl)
        by (rewrite Hc; discriminate).
      destruct (replies_of_last (split_message s)) as (evs & body & E);
        [rewrite Hc; discriminate|].
      rewrite E. now exists evs, body.
  - destruct (text r) as [error_text | e] eqn:Ht.
    + left. rewrite (relay_not_200 repr_str world r error_text tr H Hs Ht).
      eexists [ClearReactions; AddReaction cross_mark], _. reflexivity.
    + right. exists e. apply relay_raise. left. now split.
Qed.

Lemma settle_ends (r : response) (tr : trace) :
  ends_in_reply (settle world (relay repr_str world r tr)) tr.
Proof.
  destruct (relay_outcome r tr) as [(evs & body & E) | (e & E)]; rewrite E; cbn [settle].
  - now exists evs, body.
  - rewrite (failed_report world e tr H). apply ends_in_reply_report.
Qed.

Lemma failed_ends (e : exn) (tr pre : trace) :
  ends_in_reply (failed world e (tr ++ pre)) tr.
Proof.
  rewrite (failed_report world e _ H).
  apply ends_in_reply_more with (pre := pre). apply ends_in_reply_report.
Qed.

Lemma process_text_ends (t : str) (tr : trace) :
  ends_in_reply (process_text repr_str env world t tr) tr.
Proof.
  destruct (http_post world (text_url env) (JsonText t (bearer env)))
    as [r | e] eqn:Hp.
  - rewrite (process_text_relay repr_str env world t r tr H Hp).
    eapply ends_in_reply_more. apply settle_ends.
  - rewrite (process_text_post_raise repr_str env world t e tr H Hp).
    rewrite app_assoc. eapply ends_in_reply_more. apply ends_in_reply_report.
Qed.

Lemma process_image_ends (a : attachment) (tr : trace) :
  ends_in_reply (process_image repr_str env world a tr) tr.
Proof.
  destruct (attachment_read world a) as [data | e] eqn:Hr.
  - destruct (http_post world (image_url env)
                (FormFile data (filename a) (content_type a))) as [r | e] eqn:Hp.
    + rewrite (process_image_relay repr_str env world a data r tr H Hr Hp).
      eapply ends_in_reply_more. apply settle_ends.
    + unfold process_image, try_except, bind, add_reaction, platform, read,
        session_post.
      fold (image_url env). rewrite H, Hr, Hp. rewrite <- !app_assoc.
      apply failed_ends.
  - unfold process_image, try_except, bind, add_reaction, platform, read.
    rewrite H, Hr. rewrite <- !app_assoc. apply failed_ends.
Qed.

Lemma process_image_url_ends (url : str) (tr : trace) :
  ends_in_reply (process_image_url repr_str env world url tr) tr.
Proof.
  destruct (http_get world url) as [d | e] eqn:Hg.
  2:{ unfold process_image_url, try_except, bind, add_reaction, platform,
        session_get.
      rewrite H, Hg. rewrite <- !app_assoc. apply failed_ends. }
  destruct (Z.eq_dec (d_status d) 200) as [Hs | Hs].
  2:{ apply Z.eqb_neq in Hs.
      unfold process_image_url, try_except, bind, add_reaction, platform,
        session_get, raise.
      rewrite H, Hg, Hs. cbn [negb]. rewrite <- !app_assoc. apply failed_ends. }
  destruct (d_read d) as [data | e] eqn:Hr.
  2:{ unfold process_image_url, try_except, bind, add_reaction, platform,
        session_get, lift.
      rewrite H, Hg, Hs. cbn [Z.eqb Pos.eqb negb]. rewrite Hr.
      rewrite <- !app_assoc. apply failed_ends. }
  destruct (http_post world (image_url env) (forwarded url d data))
    as [r | e] eqn:Hp.
  - rewrite (process_image_url_relay repr_str env world url d data r tr
               H Hg Hs Hr Hp).
    eapply ends_in_reply_more. apply settle_ends.
  - unfold process_image_url, try_except, bind, add_reaction, platform,
      session_get, session_post, lift.
    fold (image_url env). rewrite H, Hg, Hs. cbn [Z.eqb Pos.eqb negb].
    rewrite Hr. fold (forwarded url d data). rewrite Hp.
    rewrite <- !app_assoc. apply failed_ends.
Qed.

Lemma run_ends (k : kind) (tr : trace) :
  ends_in_reply (run repr_str env world k tr) tr.
Proof.
  destruct k; cbn [run];
    [apply process_image_ends | apply process_image_url_ends | apply process_text_ends].
Qed.

End Ends.

(** X16.  With a platform that takes every call, the dispatch of a message
    that mentions the bot and is not the bot's own returns without an
    exception, and the last thing it does is a reply: the request for
    input, the formatted text, or the report of a failure.  Whatever the
    formatting API or the download do, the user gets an answer. *)
Theorem dispatch_ends_in_reply (repr_str : str -> str) (env : environ)
        (world : outside) (self_id : Z) (m : message) (tr : trace) :
  reliable world ->
  mentioned m = true ->
  author m <> self_id ->
  exists evs body,
    on_message repr_str env world self_id m tr =
    (Ok tt, tr ++ evs ++ [Reply body]).
Proof.
  intros H Hm Ha.
  assert (Hc : (stripped_content self_id m = [] /\ attachments m = []) \/
               (stripped_content self_id m <> [] \/ attachments m <> [])).
  { destruct (stripped_content self_id m); destruct (attachments m);
      try (right; (left; discriminate) || (right; discriminate)).
    now left. }
  destruct Hc as [[Hc Hatt] | Hc].
  - exists [], (lit "Please provide some tour dates, an image, or an image URL.").
    unfold on_message. rewrite Hm. cbn [negb].
    apply Z.eqb_neq in Ha. rewrite Ha, Hc, Hatt. cbn [truthy negb andb].
    unfold reply, platform. now rewrite H.
  - destruct (classify (attachments m) (stripped_content self_id m))
      as [k | e] eqn:Hk.
    + rewrite (on_message_kind repr_str env world self_id m k Hm Ha Hc Hk).
      unfold taken_up.
      unfold bind at 1. unfold add_reaction at 1, platform at 1. rewrite H.
      unfold try_except.
      destruct (run_ends repr_str env world H k
                  (tr ++ [AddReaction hourglass])) as (evs & body & E).
      rewrite E. exists (AddReaction hourglass :: evs), body.
      now rewrite <- !app_assoc.
    + rewrite (on_message_unclassified repr_str env world self_id m e Hm Ha Hc Hk).
      unfold bind at 1. unfold add_reaction at 1, platform at 1. rewrite H.
      unfold last_resort.
      rewrite (report_ok world (lit "Error: " ++ exn_str e) _ H).
      exists [AddReaction hourglass; ClearReactions; AddReaction cross_mark],
             (lit "Error: " ++ exn_str e).
      now rewrite <- !app_assoc.
Qed.

(** ** The mention and its removal *)

Lemma startswith_app (old s : str) : startswith old (old ++ s) = true.
Proof. apply startswith_spec. now exists s. Qed.

Lemma remove_scan_skip (old a s : str) :
  remove_scan old (a ++ s) (length a) = remove_scan old s 0.
Proof. induction a as [|c a IH]; [reflexivity | exact IH]. Qed.

Lemma remove_scan_absent (p : char) (old s : str) :
  ~ In p s -> remove_scan (p :: old) s 0 = s.
Proof.
  induction s as [|c s IH]; intros H; [reflexivity|].
  cbn [remove_scan startswith].
  destruct (N.eqb_spec p c) as [-> | _]; [destruct H; now left|].
  cbn [andb]. rewrite IH; [reflexivity|]. intros Hin. apply H. now right.
Qed.

Lemma remove_all_prefix (p : char) (old s : str) :
  remove_all (p :: old) ((p :: old) ++ s) = remove_all (p :: old) s.
Proof.
  cbn [remove_all]. change ((p :: old) ++ s) with (p :: (old ++ s)).
  cbn [remove_scan].
  change (p :: old ++ s) with ((p :: old) ++ s). rewrite startswith_app.
  cbn [length Nat.sub]. rewrite Nat.sub_0_r. apply remove_scan_skip.
Qed.

Lemma blank_no_angle (w : str) : blank w = true -> ~ In 60%N w.
Proof.
  unfold blank. rewrite forallb_forall. intros H Hin.
  apply H in Hin. discriminate.
Qed.

Lemma uint_decimal (d : Decimal.uint) :
  forallb decimal_char (lit (NilEmpty.string_of_uint d)) = true.
Proof. induction d; simpl; try reflexivity; exact IHd. Qed.

Lemma of_Z_decimal (n : Z) : forallb decimal_char (of_Z n) = true.
Proof.
  unfold of_Z.
  destruct (Z.to_int n) as [d | d]; destruct d; try reflexivity;
    simpl; apply uint_decimal.
Qed.

Lemma decimal_no_angle (ds : str) :
  forallb decimal_char ds = true -> ~ In 60%N ds.
Proof.
  rewrite forallb_forall. intros H Hin. apply H in Hin. discriminate.
Qed.

Lemma startswith_decimal (ds rest s : str) :
  forallb decimal_char ds = true ->
  startswith (ds ++ 62%N :: rest) (33%N :: s) = false.
Proof.
  destruct ds as [|d ds]; [reflexivity|]. simpl. intros H.
  apply andb_prop in H as [Hd _].
  destruct (N.eqb_spec d 33) as [-> | _]; [discriminate | reflexivity].
Qed.

Lemma remove_scan_miss (old : str) (c : char) (s : str) :
  startswith old (c :: s) = false ->
  remove_scan old (c :: s) 0 = c :: remove_scan old s 0.
Proof. intros H. cbn [remove_scan]. now rewrite H. Qed.

Lemma plain_mention_head (id : Z) :
  plain_mention id = 60%N :: 64%N :: of_Z id ++ [62%N].
Proof. reflexivity. Qed.

Lemma nick_mention_head (id : Z) :
  nick_mention id = 60%N :: 64%N :: 33%N :: of_Z id ++ [62%N].
Proof. reflexivity. Qed.

(** A message that is the mention alone, in either form, with white space
    after it, has nothing left once the mention is taken out. *)
Lemma stripped_bare_mention (id : Z) (m : message) (w : str) :
  blank w = true ->
  content m = plain_mention id ++ w \/ content m = nick_mention id ++ w ->
  stripped_content id m = [].
Proof.
  intros Hw Hc. unfold stripped_content.
  change (lit "<@!" ++ of_Z id ++ lit ">") with (nick_mention id).
  change (lit "<@" ++ of_Z id ++ lit ">") with (plain_mention id).
  assert (Hno := blank_no_angle w Hw).
  assert (E : remove_all (nick_mention id)
                (remove_all (plain_mention id) (content m)) = w).
  { destruct Hc as [-> | ->].
    - rewrite plain_mention_head, remove_all_prefix.
      cbn [remove_all]. rewrite (remove_scan_absent _ _ _ Hno).
      rewrite nick_mention_head. cbn [remove_all].
      now apply remove_scan_absent.
    - replace (remove_all (plain_mention id) (nick_mention id ++ w))
        with (nick_mention id ++ w).
      + rewrite nick_mention_head, remove_all_prefix. cbn [remove_all].
        now apply remove_scan_absent.
      + rewrite plain_mention_head, nick_mention_head.
        cbn [remove_all].
        change ((60 :: 64 :: 33 :: of_Z id ++ [62]) ++ w)%N
          with (60 :: 64 :: 33 :: (of_Z id ++ [62]) ++ w)%N.
        rewrite <- app_assoc. cbn [app].
        rewrite remove_scan_miss.
        2:{ cbn [startswith]. rewrite !N.eqb_refl. cbn [andb].
            apply startswith_decimal, of_Z_decimal. }
        f_equal. symmetry. apply remove_scan_absent.
        intros [Hin | [Hin | Hin]]; try discriminate.
        apply in_app_or in Hin as [Hin | Hin].
        * exact (decimal_no_angle _ (of_Z_decimal id) Hin).
        * destruct Hin as [Hin | Hin]; [discriminate | contradiction]. }
  rewrite E. now apply strip_blank.
Qed.

(** X17.  A message that is only the mention of the bot, in the plain form
    or in the nickname form, followed by white space or by nothing, with
    no attachment: the dispatch asks for input and does nothing else. *)
Theorem bare_mention_asks_for_input (repr_str : str -> str) (env : environ)
        (world : outside) (self_id : Z) (m : message) (w : str) (tr : trace) :
  mentioned m = true ->
  author m <> self_id ->
  attachments m = [] ->
  blank w = true ->
  content m = plain_mention self_id ++ w \/
  content m = nick_mention self_id ++ w ->
  snd (on_message repr_str env world self_id m tr) = tr ++ [Reply ask_for_input].
Proof.
  intros Hm Ha Hatt Hw Hc. unfold on_message. rewrite Hm. cbn [negb].
  apply Z.eqb_neq in Ha.
  rewrite Ha, (stripped_bare_mention self_id m w Hw Hc), Hatt. reflexivity.
Qed.

(** ** The file name of a downloaded image *)

Lemma split_no_sep (sep : char) (s : str) :
  Forall (fun l => ~ In sep l) (split sep s).
Proof.
  induction s as [|c s IH]; [repeat constructor; intros []|].
  destruct (N.eqb_spec c sep) as [E | E].
  - simpl. subst c. rewrite N.eqb_refl. constructor; [intros [] | exact IH].
  - rewrite split_cons by (now apply N.eqb_neq).
    assert (N := split_not_nil sep s).
    destruct (split sep s) as [|l ls]; [contradiction|].
    inversion IH as [|? ? Hl Hls]; subst. cbn [hd tl].
    constructor; [|exact Hls].
    intros [Hin | Hin]; [now apply E | now apply Hl].
Qed.

Lemma last_join (sep : char) (xs : list str) (f : str) :
  Forall (fun l => ~ In sep l) (xs ++ [f]) ->
  ~ In sep f /\
  (join [sep] (xs ++ [f]) = f \/
   exists pre, join [sep] (xs ++ [f]) = pre ++ sep :: f).
Proof.
  intros Hall. split.
  - apply Forall_app in Hall as [_ Hf]. inversion Hf; assumption.
  - destruct xs as [|x xs].
    + now left.
    + right. exists (join [sep] (x :: xs)). apply join_snoc. discriminate.
Qed.

(** The last piece of [s.split(sep)] has no separator in it, and it is what
    comes after the last separator of [s], or all of [s]. *)
Lemma last_split (sep : char) (s : str) :
  ~ In sep (last (split sep s) []) /\
  (s = last (split sep s) [] \/
   exists pre, s = pre ++ sep :: last (split sep s) []).
Proof.
  assert (N := split_not_nil sep s).
  assert (Hall := split_no_sep sep s).
  assert (Hj := join_split sep s).
  rewrite (app_removelast_last [] N) in Hall, Hj.
  destruct (last_join sep _ _ Hall) as [Hno [E | (pre & E)]].
  - split; [exact Hno|]. left.
    etransitivity; [symmetry; exact Hj | exact E].
  - split; [exact Hno|]. right. exists pre.
    etransitivity; [symmetry; exact Hj | exact E].
Qed.

Lemma forward_adds (repr_str : str -> str) (world : outside) (url : str)
      (p : payload) (tr : trace) :
  exists evs, snd (forward repr_str world url p tr) = tr ++ evs.
Proof.
  assert (Hb : adds_at_most (fun _ => false) 0
                 (fun tr => match http_post world url p with
                            | Ok r => relay repr_str world r tr
                            | Raise e => (Raise e, tr)
                            end)).
  { destruct (http_post world url p) as [r | e].
    - apply (adds_relay (fun _ => false) world repr_str);
        try reflexivity; intros; reflexivity.
    - apply (adds_raise (fun _ => false) (A := unit) e). }
  assert (Hf : forall e, adds_at_most (fun _ => false) 0 (failed world e)).
  { intros e. apply (adds_failed (fun _ => false) world);
      try reflexivity; intros; reflexivity. }
  destruct (adds_try_except (fun _ => false) 0 0 _ _ Hb Hf tr) as (evs & E & _).
  now exists evs.
Qed.

(** X18.  In the image-URL pipeline, once the image is downloaded, the one
    request to the formatting API carries the downloaded bytes under a
    file name without a slash: the part of the URL after its last slash
    (all of the URL when it has none), query string included. *)
Theorem forwarded_file_name (repr_str : str -> str) (env : environ)
        (world : outside) (url : str) (d : download) (data : bytes) (tr : trace) :
  platform_fault world (length tr) = None ->
  http_get world url = Ok d ->
  d_status d = 200%Z ->
  d_read d = Ok data ->
  exists f rest,
    snd (process_image_url repr_str env world url tr) =
    tr ++ [AddReaction hourglass; HttpGet url;
           HttpPost (image_url env)
                    (FormFile data f (Some (forwarded_type d)))] ++ rest /\
    ~ In 47%N f /\
    (url = f \/ exists pre, url = pre ++ 47%N :: f).
Proof.
  intros H0 Hg Hs Hr.
  destruct (last_split 47%N url) as [Hno Hdec].
  exists (last (split 47%N url) []).
  destruct (forward_adds repr_str world (image_url env) (forwarded url d data)
              (tr ++ [AddReaction hourglass; HttpGet url;
                      HttpPost (image_url env) (forwarded url d data)]))
    as (rest & E).
  exists rest. split; [|split; assumption].
  rewrite <- app_assoc in E.
  etransitivity; [|exact E].
  unfold process_image_url, forward, try_except, bind, add_reaction, platform,
    session_get, session_post, lift.
  fold (image_url env). rewrite H0, Hg, Hs. cbn [Z.eqb Pos.eqb negb].
  rewrite Hr. fold (forwarded url d data). rewrite <- !app_assoc. cbn [app].
  now destruct (http_post world (image_url env) (forwarded url d data)).
Qed.

(** ** The size of the replies *)

Lemma length_first_reply (c : str) : length (first_reply c) = length c + 73.
Proof. unfold first_reply. rewrite !length_app. simpl. lia. Qed.

Lemma length_follow_up (c : str) : length (follow_up c) = length c + 23.
Proof. unfold follow_up. rewrite !length_app. simpl. lia. Qed.

Lemma replies_of_bound (chunks : list str) (n : nat) (body : str) :
  Forall (fun c => length c <= n) chunks ->
  In (Reply body) (replies_of chunks) ->
  length body <= n + 73.
Proof.
  intros Hall Hin. destruct chunks as [|c rest]; [contradiction|].
  inversion Hall as [|? ? Hc Hrest]; subst.
  destruct Hin as [E | Hin].
  - injection E as <-. rewrite length_first_reply. lia.
  - apply in_map_iff in Hin as (x & E & Hx). injection E as <-.
    rewrite Forall_forall in Hrest. specialize (Hrest x Hx).
    rewrite length_follow_up. lia.
Qed.

Lemma chunks_within_limit (s : str) :
  Forall (fun l => length l <= MAX_DISCORD_LENGTH) (split newline s) ->
  Forall (fun c => length c <= MAX_DISCORD_LENGTH) (split_message s).
Proof.
  intros H. rewrite Forall_forall in *. intros c Hc.
  assert (Hw := chunk_lines_within (split newline s)).
  rewrite Forall_forall in Hw.
  destruct (Hw c Hc) as [Hle | (line & Hin & Hlong & _)]; [exact Hle|].
  specialize (H line Hin). lia.
Qed.

(** X19.  When the formatting API answers the text pipeline with 200 and a
    text of which no line is longer than [MAX_DISCORD_LENGTH], every reply
    of the pipeline has at most [MAX_DISCORD_LENGTH + 73] characters: a
    chunk and the code block with the disclaimer around it. *)
Theorem reply_length_bound (repr_str : str -> str) (env : environ)
        (world : outside) (t : str) (r : response) (items : list (str * json))
        (s : str) (tr : trace) :
  reliable world ->
  http_post world (text_url env) (JsonText t (bearer env)) = Ok r ->
  status r = 200%Z ->
  json_body r = Ok (JDict items) ->
  lookup (lit "formatted_dates") items = Some (JStr s) ->
  Forall (fun l => length l <= MAX_DISCORD_LENGTH) (split newline s) ->
  exists evs,
    process_text repr_str env world t tr = (Ok tt, tr ++ evs) /\
    forall body, In (Reply body) evs -> length body <= MAX_DISCORD_LENGTH + 73.
Proof.
  intros H Hp Hs Hj Hl Hlines.
  rewrite (process_text_relay repr_str env world t r tr H Hp).
  destruct (split_message s) as [|c rest] eqn:Hc.
  - rewrite (relay_no_chunks repr_str world r items s _ Hs Hj Hl Hc).
    cbn [settle]. rewrite (failed_report world _ _ H), <- app_assoc.
    eexists. split; [reflexivity|].
    intros body Hin. cbn in Hin.
    destruct Hin as [E | [E | [E | [E | [E | []]]]]]; try discriminate.
    injection E as <-. simpl. lia.
  - rewrite (relay_chunks repr_str world r items s _ H Hs Hj Hl)
      by (rewrite Hc; discriminate).
    cbn [settle]. rewrite <- app_assoc.
    eexists. split; [reflexivity|].
    intros body Hin. cbn [app] in Hin.
    destruct Hin as [E | [E | Hin]]; try discriminate.
    apply (replies_of_bound (split_message s)); [|exact Hin].
    now apply chunks_within_limit.
Qed.

(** ** Sample dispatches for the further properties *)

Lemma chunks_replied_in_order_witness :
  (reliable (answering (dates_answer long_message)) /\
   status (dates_answer long_message) = 200%Z /\
   json_body (dates_answer long_message) =
     Ok (JDict [(lit "formatted_dates", JStr long_message)]) /\
   lookup (lit "formatted_dates") [(lit "formatted_dates", JStr long_message)] =
     Some (JStr long_message) /\
   split_message long_message <> []) /\
  process_text sample_repr sample_env (answering (dates_answer long_message))
               (lit "May 5 Berlin") [] =
  (Ok tt,
   [AddReaction hourglass;
    HttpPost (lit "http://api:4545/format/text") tour_request;
    Reply (first_reply (lit "May 5"));
    Reply (follow_up long_line);
    Reply (follow_up (lit "May 6"))]).
Proof.
  assert (H1 : reliable (answering (dates_answer long_message)))
    by (intros n; reflexivity).
  assert (H2 : status (dates_answer long_message) = 200%Z) by reflexivity.
  assert (H3 : json_body (dates_answer long_message) =
               Ok (JDict [(lit "formatted_dates", JStr long_message)]))
    by reflexivity.
  assert (H4 : lookup (lit "formatted_dates")
                 [(lit "formatted_dates", JStr long_message)] =
               Some (JStr long_message)) by reflexivity.
  assert (H5 : split_message long_message <> [])
    by (vm_compute; discriminate).
  split; [repeat split; assumption|].
  destruct (chunks_replied_in_order sample_repr sample_env
              (answering (dates_answer long_message)) (dates_answer long_message)
              [(lit "formatted_dates", JStr long_message)] long_message []
              H1 H2 H3 H4 H5) as (Htext & _).
  rewrite (Htext (lit "May 5 Berlin") eq_refl).
  vm_compute. reflexivity.
Defined.

Lemma short_result_one_reply_witness :
  (reliable (answering (dates_answer two_dates)) /\
   http_post (answering (dates_answer two_dates)) (text_url sample_env)
             (JsonText (lit "May 5 Berlin") (bearer sample_env)) =
     Ok (dates_answer two_dates) /\
   status (dates_answer two_dates) = 200%Z /\
   json_body (dates_answer two_dates) =
     Ok (JDict [(lit "formatted_dates", JStr two_dates)]) /\
   lookup (lit "formatted_dates") [(lit "formatted_dates", JStr two_dates)] =
     Some (JStr two_dates) /\
   length two_dates <= MAX_DISCORD_LENGTH /\
   all_newlines two_dates = false) /\
  process_text sample_repr sample_env (answering (dates_answer two_dates))
               (lit "May 5 Berlin") [] =
  (Ok tt,
   [AddReaction hourglass;
    HttpPost (text_url sample_env)
             (JsonText (lit "May 5 Berlin") (bearer sample_env));
    Reply (first_reply (strip two_dates))]).
Proof.
  assert (H1 : reliable (answering (dates_answer two_dates)))
    by (intros n; reflexivity).
  assert (H2 : http_post (answering (dates_answer two_dates)) (text_url sample_env)
                 (JsonText (lit "May 5 Berlin") (bearer sample_env)) =
               Ok (dates_answer two_dates)) by reflexivity.
  assert (H3 : status (dates_answer two_dates) = 200%Z) by reflexivity.
  assert (H4 : json_body (dates_answer two_dates) =
               Ok (JDict [(lit "formatted_dates", JStr two_dates)])) by reflexivity.
  assert (H5 : lookup (lit "formatted_dates")
                 [(lit "formatted_dates", JStr two_dates)] = Some (JStr two_dates))
    by reflexivity.
  assert (H6 : length two_dates <= MAX_DISCORD_LENGTH)
    by (apply Nat.leb_le; vm_compute; reflexivity).
  assert (H7 : all_newlines two_dates = false) by (vm_compute; reflexivity).
  split; [repeat split; assumption|].
  exact (short_result_one_reply sample_repr sample_env
           (answering (dates_answer two_dates)) (lit "May 5 Berlin")
           (dates_answer two_dates) [(lit "formatted_dates", JStr two_dates)]
           two_dates [] H1 H2 H3 H4 H5 H6 H7).
Defined.

Lemma text_request_failure_witness :
  (reliable (unreachable timed_out) /\
   http_post (unreachable timed_out) (text_url sample_env)
             (JsonText (lit "May 5 Berlin") (bearer sample_env)) = Raise timed_out) /\
  process_text sample_repr sample_env (unreachable timed_out) (lit "May 5 Berlin") [] =
  (Ok tt,
   [AddReaction hourglass;
    HttpPost (text_url sample_env)
             (JsonText (lit "May 5 Berlin") (bearer sample_env));
    ClearReactions; AddReaction cross_mark;
    Reply (lit "Error: Request timed out. Please try again.")]).
Proof.
  assert (H1 : reliable (unreachable timed_out)) by (intros n; reflexivity).
  assert (H2 : http_post (unreachable timed_out) (text_url sample_env)
                 (JsonText (lit "May 5 Berlin") (bearer sample_env)) =
               Raise timed_out) by reflexivity.
  split; [split; assumption|].
  exact (text_request_failure sample_repr sample_env (unreachable timed_out)
           (lit "May 5 Berlin") timed_out [] H1 H2).
Defined.

Lemma attachment_failures_witness :
  reliable (unreachable timed_out) /\
  process_image sample_repr sample_env (unreachable timed_out) poster_attachment [] =
  (Ok tt,
   [AddReaction hourglass; ReadAttachment poster_attachment;
    ClearReactions; AddReaction cross_mark;
    Reply (failure_text timed_out)]).
Proof.
  assert (H1 : reliable (unreachable timed_out)) by (intros n; reflexivity).
  split; [exact H1|].
  destruct (attachment_failures sample_repr sample_env (unreachable timed_out)
              poster_attachment timed_out [] H1) as (Hread & _).
  exact (Hread eq_refl).
Defined.

Lemma download_refused_witness :
  (reliable (fetching missing_page list_answer) /\
   http_get (fetching missing_page list_answer) poster_link = Ok missing_page /\
   d_status missing_page <> 200%Z) /\
  process_image_url sample_repr sample_env (fetching missing_page list_answer)
                    poster_link [] =
  (Ok tt,
   [AddReaction hourglass; HttpGet poster_link;
    ClearReactions; AddReaction cross_mark;
    Reply (lit "Error: Failed to download image: HTTP 404")]).
Proof.
  assert (H1 : reliable (fetching missing_page list_answer))
    by (intros n; reflexivity).
  assert (H2 : http_get (fetching missing_page list_answer) poster_link =
               Ok missing_page) by reflexivity.
  assert (H3 : d_status missing_page <> 200%Z) by (simpl; lia).
  split; [repeat split; assumption|].
  exact (download_refused sample_repr sample_env
           (fetching missing_page list_answer) poster_link missing_page [] H1 H2 H3).
Defined.

Lemma download_failures_witness :
  (reliable (unreachable timed_out) /\
   (http_get (unreachable timed_out) poster_link = Raise timed_out \/
    exists d, http_get (unreachable timed_out) poster_link = Ok d /\
              d_status d = 200%Z /\ d_read d = Raise timed_out)) /\
  process_image_url sample_repr sample_env (unreachable timed_out) poster_link [] =
  (Ok tt,
   [AddReaction hourglass; HttpGet poster_link;
    ClearReactions; AddReaction cross_mark;
    Reply (failure_text timed_out)]).
Proof.
  assert (H1 : reliable (unreachable timed_out)) by (intros n; reflexivity).
  assert (H2 : http_get (unreachable timed_out) poster_link = Raise timed_out \/
               exists d, http_get (unreachable timed_out) poster_link = Ok d /\
                         d_status d = 200%Z /\ d_read d = Raise timed_out)
    by (left; reflexivity).
  split; [split; assumption|].
  exact (download_failures sample_repr sample_env (unreachable timed_out)
           poster_link timed_out [] H1 H2).
Defined.

Lemma unusable_answer_witness :
  (reliable (answering list_answer) /\
   http_post (answering list_answer) (text_url sample_env)
             (JsonText (lit "May 5 Berlin") (bearer sample_env)) = Ok list_answer /\
   status list_answer = 200%Z) /\
  process_text sample_repr sample_env (answering list_answer) (lit "May 5 Berlin") [] =
  (Ok tt,
   [AddReaction hourglass;
    HttpPost (text_url sample_env)
             (JsonText (lit "May 5 Berlin") (bearer sample_env));
    ClearReactions; AddReaction cross_mark;
    Reply (lit "Error: 'list' object has no attribute 'get'")]).
Proof.
  assert (H1 : reliable (answering list_answer)) by (intros n; reflexivity).
  assert (H2 : http_post (answering list_answer) (text_url sample_env)
                 (JsonText (lit "May 5 Berlin") (bearer sample_env)) =
               Ok list_answer) by reflexivity.
  assert (H3 : status list_answer = 200%Z) by reflexivity.
  split; [repeat split; assumption|].
  destruct (unusable_answer sample_repr sample_env (answering list_answer)
              (lit "May 5 Berlin") list_answer [] H1 H2 H3) as (_ & Hlist & _).
  apply (Hlist (JList []) eq_refl). intros items. discriminate.
Defined.

Lemma newline_result_fails_witness :
  (reliable (answering (dates_answer [newline; newline])) /\
   http_post (answering (dates_answer [newline; newline])) (text_url sample_env)
             (JsonText (lit "May 5 Berlin") (bearer sample_env)) =
     Ok (dates_answer [newline; newline]) /\
   status (dates_answer [newline; newline]) = 200%Z /\
   json_body (dates_answer [newline; newline]) =
     Ok (JDict [(lit "formatted_dates", JStr [newline; newline])]) /\
   lookup (lit "formatted_dates")
          [(lit "formatted_dates", JStr [newline; newline])] =
     Some (JStr [newline; newline]) /\
   all_newlines [newline; newline] = true) /\
  process_text sample_repr sample_env (answering (dates_answer [newline; newline]))
               (lit "May 5 Berlin") [] =
  (Ok tt,
   [AddReaction hourglass;
    HttpPost (text_url sample_env)
             (JsonText (lit "May 5 Berlin") (bearer sample_env));
    ClearReactions; AddReaction cross_mark;
    Reply (lit "Error: list index out of range")]).
Proof.
  assert (H1 : reliable (answering (dates_answer [newline; newline])))
    by (intros n; reflexivity).
  split; [repeat split; try reflexivity; exact H1|].
  exact (newline_result_fails sample_repr sample_env
           (answering (dates_answer [newline; newline])) (lit "May 5 Berlin")
           (dates_answer [newline; newline])
           [(lit "formatted_dates", JStr [newline; newline])]
           [newline; newline] [] H1 eq_refl eq_refl eq_refl eq_refl eq_refl).
Defined.

Lemma reply_target_gone_witness :
  (platform_fault (gone_at 2 (dates_answer long_message)) (length (@nil event)) = None /\
   platform_fault (gone_at 2 (dates_answer long_message)) (length (@nil event) + 2) =
     Some (Exn NotFound (lit "404 Not Found")) /\
   exn_kind_of (Exn NotFound (lit "404 Not Found")) = NotFound /\
   split_message long_message <> []) /\
  process_text sample_repr sample_env (gone_at 2 (dates_answer long_message))
               (lit "May 5 Berlin") [] =
  (Ok tt,
   [AddReaction hourglass;
    HttpPost (text_url sample_env)
             (JsonText (lit "May 5 Berlin") (bearer sample_env));
    Reply (first_reply (hd [] (split_message long_message)))]).
Proof.
  assert (H5 : split_message long_message <> [])
    by (vm_compute; discriminate).
  split; [repeat split; try reflexivity; exact H5|].
  exact (reply_target_gone sample_repr sample_env
           (gone_at 2 (dates_answer long_message)) (lit "May 5 Berlin")
           (dates_answer long_message)
           [(lit "formatted_dates", JStr long_message)] long_message
           (Exn NotFound (lit "404 Not Found")) []
           eq_refl eq_refl eq_refl eq_refl eq_refl eq_refl eq_refl H5).
Defined.

Lemma dispatch_ends_in_reply_witness :
  (reliable (unreachable timed_out) /\
   mentioned tour_message = true /\
   author tour_message <> 42%Z) /\
  exists evs body,
    on_message sample_repr sample_env (unreachable timed_out) 42 tour_message [] =
    (Ok tt, [] ++ evs ++ [Reply body]).
Proof.
  assert (H1 : reliable (unreachable timed_out)) by (intros n; reflexivity).
  assert (H2 : mentioned tour_message = true) by reflexivity.
  assert (H3 : author tour_message <> 42%Z) by (simpl; lia).
  split; [repeat split; assumption|].
  exact (dispatch_ends_in_reply sample_repr sample_env (unreachable timed_out)
           42 tour_message [] H1 H2 H3).
Defined.

Lemma bare_mention_asks_for_input_witness :
  (mentioned bare_mention = true /\
   author bare_mention <> 42%Z /\
   attachments bare_mention = [] /\
   blank (lit "  ") = true /\
   (content bare_mention = plain_mention 42 ++ lit "  " \/
    content bare_mention = nick_mention 42 ++ lit "  ")) /\
  snd (on_message sample_repr sample_env (answering bad_input) 42 bare_mention []) =
  [] ++ [Reply ask_for_input].
Proof.
  assert (H1 : mentioned bare_mention = true) by reflexivity.
  assert (H2 : author bare_mention <> 42%Z) by (simpl; lia).
  assert (H3 : attachments bare_mention = []) by reflexivity.
  assert (H4 : blank (lit "  ") = true) by reflexivity.
  assert (H5 : content bare_mention = plain_mention 42 ++ lit "  " \/
               content bare_mention = nick_mention 42 ++ lit "  ")
    by (left; reflexivity).
  split; [repeat split; assumption|].
  exact (bare_mention_asks_for_input sample_repr sample_env (answering bad_input)
           42 bare_mention (lit "  ") [] H1 H2 H3 H4 H5).
Defined.

Lemma forwarded_file_name_witness :
  (platform_fault (fetching poster list_answer) (length (@nil event)) = None /\
   http_get (fetching poster list_answer) poster_link = Ok poster /\
   d_status poster = 200%Z /\
   d_read poster = Ok []) /\
  exists f rest,
    snd (process_image_url sample_repr sample_env (fetching poster list_answer)
                           poster_link []) =
    [] ++ [AddReaction hourglass; HttpGet poster_link;
           HttpPost (image_url sample_env)
                    (FormFile [] f (Some (forwarded_type poster)))]
       ++ rest /\
    ~ In 47%N f /\
    (poster_link = f \/ exists pre, poster_link = pre ++ 47%N :: f).
Proof.
  split; [repeat split; reflexivity|].
  exact (forwarded_file_name sample_repr sample_env (fetching poster list_answer)
           poster_link poster [] [] eq_refl eq_refl eq_refl eq_refl).
Defined.

Lemma reply_length_bound_witness :
  (reliable (answering (dates_answer two_dates)) /\
   Forall (fun l => length l <= MAX_DISCORD_LENGTH) (split newline two_dates)) /\
  exists evs,
    process_text sample_repr sample_env (answering (dates_answer two_dates))
                 (lit "May 5 Berlin") [] = (Ok tt, [] ++ evs) /\
    forall body, In (Reply body) evs -> length body <= MAX_DISCORD_LENGTH + 73.
Proof.
  assert (H1 : reliable (answering (dates_answer two_dates)))
    by (intros n; reflexivity).
  assert (H2 : Forall (fun l => length l <= MAX_DISCORD_LENGTH)
                 (split newline two_dates))
    by (repeat constructor; apply Nat.leb_le; vm_compute; reflexivity).
  split; [split; assumption|].
  exact (reply_length_bound sample_repr sample_env
           (answering (dates_answer two_dates)) (lit "May 5 Berlin")
           (dates_answer two_dates) [(lit "formatted_dates", JStr two_dates)]
           two_dates [] H1 eq_refl eq_refl eq_refl eq_refl H2).
Defined.

(** ** What a dispatch sends, and what becomes of a failed report *)

Section Sends.

Variable repr_str : str -> str.
Variable env : environ.
Variable world : outside.

Lemma adds_nothing_counted {A} (m : trace -> result A * trace) (tr : trace) :
  adds_at_most (fun _ => false) 0 m -> exists evs, snd (m tr) = tr ++ evs.
Proof. intros H. destruct (H tr) as (evs & E & _). now exists evs. Qed.

Lemma adds_forward (url : str) (p : payload) :
  adds_at_most (fun _ => false) 0 (forward repr_str world url p).
Proof.
  unfold forward.
  apply adds_try_except with (a := 0) (b := 0).
  - destruct (http_post world url p) as [r | e].
    + apply (adds_relay (fun _ => false) world repr_str);
        try reflexivity; intros; reflexivity.
    + apply (adds_raise (fun _ => false) (A := unit) e).
  - intros e. apply (adds_failed (fun _ => false) world);
      try reflexivity; intros; reflexivity.
Qed.

Lemma adds_last_resort (e : exn) :
  adds_at_most (fun _ => false) 0 (last_resort world e).
Proof.
  apply (adds_report (fun _ => false) world); try reflexivity; intros; reflexivity.
Qed.

Lemma adds_guarded_forward (url : str) (p : payload) :
  adds_at_most (fun _ => false) 0
    (try_except (forward repr_str world url p) (last_resort world)).
Proof.
  apply adds_try_except with (a := 0) (b := 0);
    [apply adds_forward | intros e; apply adds_last_resort].
Qed.

Lemma classify_plain_text (t : str) :
  ~ begins_with (lit "http://") t ->
  ~ begins_with (lit "https://") t ->
  classify [] t = Ok (Text t).
Proof.
  intros H1 H2. unfold classify, first_image, is_image_url.
  destruct (startswith (lit "http://") t) eqn:E1;
    [now apply startswith_spec in E1|].
  destruct (startswith (lit "https://") t) eqn:E2;
    [now apply startswith_spec in E2|].
  reflexivity.
Qed.

(** X20.  A message taken up that has no attachment and whose text, the
    mention taken out and stripped, is not empty and does not begin with
    [http://] or [https://]: after the working marker (set by the
    dispatcher and again by the pipeline) the one request goes to
    [/format/text] with exactly that text and the bearer header. *)
Theorem text_dispatch_request (self_id : Z) (m : message) (tr : trace) :
  mentioned m = true ->
  author m <> self_id ->
  attachments m = [] ->
  stripped_content self_id m <> [] ->
  ~ begins_with (lit "http://") (stripped_content self_id m) ->
  ~ begins_with (lit "https://") (stripped_content self_id m) ->
  platform_fault world (length tr) = None ->
  platform_fault world (length tr + 1) = None ->
  exists rest,
    snd (on_message repr_str env world self_id m tr) =
    tr ++ [AddReaction hourglass; AddReaction hourglass;
           HttpPost (text_url env)
                    (JsonText (stripped_content self_id m) (bearer env))] ++ rest.
Proof.
  intros Hm Ha Hatt Hc Hh1 Hh2 H0 H1.
  assert (Hk : classify (attachments m) (stripped_content self_id m) =
               Ok (Text (stripped_content self_id m)))
    by (rewrite Hatt; exact (classify_plain_text _ Hh1 Hh2)).
  rewrite (on_message_kind repr_str env world self_id m _ Hm Ha (or_introl Hc) Hk).
  unfold taken_up. cbn [run].
  set (t := stripped_content self_id m).
  destruct (adds_nothing_counted
              (try_except (forward repr_str world (text_url env)
                                   (JsonText t (bearer env)))
                          (last_resort world))
              (tr ++ [AddReaction hourglass; AddReaction hourglass;
                      HttpPost (text_url env) (JsonText t (bearer env))])
              (adds_guarded_forward _ _)) as (rest & E).
  exists rest. rewrite <- app_assoc in E. etransitivity; [|exact E].
  unfold process_text, forward, last_resort, add_reaction, clear_reactions,
    reply, session_post.
  unfold bind, try_except, platform.
  fold (text_url env). rewrite H0.
  replace (length (tr ++ [AddReaction hourglass])) with (length tr + 1)
    by (rewrite length_app; reflexivity).
  rewrite H1, <- !app_assoc. cbn [app].
  now destruct (http_post world (text_url env) (JsonText t (bearer env))).
Qed.

(** X21.  A message taken up whose first attachment declares an image
    type: whatever its text, the dispatch reads that attachment and, when
    the read gives the bytes, the one request goes to [/format/image] with
    those bytes under the name and the type the attachment declares. *)
Theorem image_dispatch_request (self_id : Z) (m : message) (a : attachment)
        (rest_atts : list attachment) (ct : str) (data : bytes) (tr : trace) :
  mentioned m = true ->
  author m <> self_id ->
  attachments m = a :: rest_atts ->
  content_type a = Some ct ->
  begins_with (lit "image/") ct ->
  attachment_read world a = Ok data ->
  platform_fault world (length tr) = None ->
  platform_fault world (length tr + 1) = None ->
  exists rest,
    snd (on_message repr_str env world self_id m tr) =
    tr ++ [AddReaction hourglass; AddReaction hourglass; ReadAttachment a;
           HttpPost (image_url env)
                    (FormFile data (filename a) (content_type a))] ++ rest.
Proof.
  intros Hm Ha Hatt Hty Hct Hr H0 H1.
  assert (Hne : stripped_content self_id m <> [] \/ attachments m <> [])
    by (right; rewrite Hatt; discriminate).
  assert (Hk : classify (attachments m) (stripped_content self_id m) =
               Ok (ImageAttachment a)).
  { unfold classify, first_image. rewrite Hatt, Hty.
    apply startswith_spec in Hct. now rewrite Hct. }
  rewrite (on_message_kind repr_str env world self_id m _ Hm Ha Hne Hk).
  unfold taken_up. cbn [run].
  destruct (adds_nothing_counted
              (try_except (forward repr_str world (image_url env)
                                   (FormFile data (filename a) (content_type a)))
                          (last_resort world))
              (tr ++ [AddReaction hourglass; AddReaction hourglass;
                      ReadAttachment a;
                      HttpPost (image_url env)
                               (FormFile data (filename a) (content_type a))])
              (adds_guarded_forward _ _)) as (rest & E).
  exists rest. rewrite <- app_assoc in E. etransitivity; [|exact E].
  unfold process_image, forward, last_resort, add_reaction, clear_reactions,
    reply, read, session_post.
  unfold bind, try_except, platform.
  fold (image_url env). rewrite H0.
  replace (length (tr ++ [AddReaction hourglass])) with (length tr + 1)
    by (rewrite length_app; reflexivity).
  rewrite H1, Hr, <- !app_assoc. cbn [app].
  now destruct (http_post world (image_url env)
                  (FormFile data (filename a) (content_type a))).
Qed.

(** X22.  When the request of the text pipeline raises and the report of
    the failure finds the message gone ([discord.NotFound] at
    [clear_reactions]), the pipeline swallows it: it returns without an
    exception, sets no failure marker and sends no reply. *)
Theorem failure_report_gone (t : str) (e gone : exn) (tr : trace) :
  platform_fault world (length tr) = None ->
  http_post world (text_url env) (JsonText t (bearer env)) = Raise e ->
  platform_fault world (length tr + 2) = Some gone ->
  exn_kind_of gone = NotFound ->
  process_text repr_str env world t tr =
  (Ok tt,
   tr ++ [AddReaction hourglass;
          HttpPost (text_url env) (JsonText t (bearer env));
          ClearReactions]).
Proof.
  intros H0 Hp H2 Hk.
  unfold process_text, try_except, bind, add_reaction, platform, session_post.
  fold (text_url env). rewrite H0, Hp.
  unfold failed, clear_reactions.
  destruct (exn_kind_of e);
    unfold try_except, bind, platform;
    (replace (length ((tr ++ [AddReaction hourglass]) ++
                      [HttpPost (text_url env) (JsonText t (bearer env))]))
       with (length tr + 2) by (rewrite !length_app; simpl; lia));
    rewrite H2; unfold except_NotFound; rewrite Hk;
    unfold ret; now rewrite <- !app_assoc.
Qed.

End Sends.

Section Escalation.

Variable repr_str : str -> str.
Variable env : environ.
Variable world : outside.

Lemma except_NotFound_other {A} (a : A) (e : exn) (tr : trace) :
  exn_kind_of e <> NotFound -> except_NotFound a e tr = (Raise e, tr).
Proof.
  intros H. unfold except_NotFound.
  destruct (exn_kind_of e); [reflexivity | contradiction | reflexivity].
Qed.

(** X23.  When the request of the text pipeline raises and the platform
    then refuses [clear_reactions] with an error other than
    [discord.NotFound], the pipeline does not swallow that error: it
    reaches the handler of [on_message], which clears the markers again,
    sets the failure marker and replies with the message of the platform
    error; the failure of the request itself is not reported. *)
Theorem refused_report_escalates (self_id : Z) (m : message) (e refused : exn)
        (tr : trace) :
  mentioned m = true ->
  author m <> self_id ->
  attachments m = [] ->
  stripped_content self_id m <> [] ->
  ~ begins_with (lit "http://") (stripped_content self_id m) ->
  ~ begins_with (lit "https://") (stripped_content self_id m) ->
  http_post world (text_url env)
            (JsonText (stripped_content self_id m) (bearer env)) = Raise e ->
  platform_fault world (length tr) = None ->
  platform_fault world (length tr + 1) = None ->
  platform_fault world (length tr + 3) = Some refused ->
  exn_kind_of refused <> NotFound ->
  platform_fault world (length tr + 4) = None ->
  platform_fault world (length tr + 5) = None ->
  platform_fault world (length tr + 6) = None ->
  on_message repr_str env world self_id m tr =
  (Ok tt,
   tr ++ [AddReaction hourglass; AddReaction hourglass;
          HttpPost (text_url env)
                   (JsonText (stripped_content self_id m) (bearer env));
          ClearReactions;
          ClearReactions; AddReaction cross_mark;
          Reply (lit "Error: " ++ exn_str refused)]).
Proof.
  intros Hm Ha Hatt Hc Hh1 Hh2 Hp H0 H1 H3 Hk H4 H5 H6.
  assert (Hkind : classify (attachments m) (stripped_content self_id m) =
                  Ok (Text (stripped_content self_id m)))
    by (rewrite Hatt; exact (classify_plain_text _ Hh1 Hh2)).
  rewrite (on_message_kind repr_str env world self_id m _ Hm Ha (or_introl Hc)
             Hkind).
  unfold taken_up. cbn [run].
  set (t := stripped_content self_id m) in *.
  assert (L1 : length (tr ++ [AddReaction hourglass]) = length tr + 1)
    by (rewrite length_app; reflexivity).
  assert (E : process_text repr_str env world t (tr ++ [AddReaction hourglass]) =
              (Raise refused,
               tr ++ [AddReaction hourglass; AddReaction hourglass;
                      HttpPost (text_url env) (JsonText t (bearer env));
                      ClearReactions])).
  { unfold process_text, add_reaction, session_post.
    unfold try_except at 1, bind, platform. fold (text_url env).
    rewrite L1, H1, Hp.
    unfold failed, clear_reactions.
    destruct (exn_kind_of e); unfold try_except, bind, platform;
      rewrite <- !app_assoc; cbn [app]; rewrite length_app; cbn [length];
      rewrite H3, (except_NotFound_other _ _ _ Hk); reflexivity. }
  unfold bind at 1, add_reaction at 1, platform at 1. rewrite H0.
  unfold try_except. rewrite E.
  unfold last_resort, bind, clear_reactions, add_reaction, reply, platform.
  rewrite <- !app_assoc. cbn [app]. rewrite !length_app. cbn [length].
  rewrite H4, H5. now rewrite H6.
Qed.

End Escalation.

Lemma tour_message_text : stripped_content 42 tour_message = lit "May 5 Berlin".
Proof. vm_compute. reflexivity. Qed.

Lemma tour_message_no_link :
  ~ begins_with (lit "http://") (stripped_content 42 tour_message) /\
  ~ begins_with (lit "https://") (stripped_content 42 tour_message).
Proof.
  rewrite tour_message_text.
  split; intros [r Hr]; vm_compute in Hr; discriminate.
Qed.

Lemma text_dispatch_request_witness :
  (mentioned tour_message = true /\
   author tour_message <> 42%Z /\
   attachments tour_message = [] /\
   stripped_content 42 tour_message <> [] /\
   ~ begins_with (lit "http://") (stripped_content 42 tour_message) /\
   ~ begins_with (lit "https://") (stripped_content 42 tour_message)) /\
  exists rest,
    snd (on_message sample_repr sample_env (answering bad_input) 42 tour_message []) =
    [] ++ [AddReaction hourglass; AddReaction hourglass;
           HttpPost (text_url sample_env)
                    (JsonText (stripped_content 42 tour_message)
                              (bearer sample_env))] ++ rest.
Proof.
  assert (H1 : mentioned tour_message = true) by reflexivity.
  assert (H2 : author tour_message <> 42%Z) by (simpl; lia).
  assert (H3 : attachments tour_message = []) by reflexivity.
  assert (H4 : stripped_content 42 tour_message <> [])
    by (vm_compute; discriminate).
  destruct tour_message_no_link as [H5 H6].
  split; [repeat split; assumption|].
  exact (text_dispatch_request sample_repr sample_env (answering bad_input)
           42 tour_message [] H1 H2 H3 H4 H5 H6 eq_refl eq_refl).
Defined.

Lemma image_dispatch_request_witness :
  (mentioned poster_message = true /\
   author poster_message <> 42%Z /\
   attachments poster_message = [poster_attachment] /\
   content_type poster_attachment = Some (lit "image/png") /\
   begins_with (lit "image/") (lit "image/png") /\
   attachment_read (answering bad_input) poster_attachment = Ok []) /\
  exists rest,
    snd (on_message sample_repr sample_env (answering bad_input) 42
                    poster_message []) =
    [] ++ [AddReaction hourglass; AddReaction hourglass;
           ReadAttachment poster_attachment;
           HttpPost (image_url sample_env)
                    (FormFile [] (filename poster_attachment)
                              (content_type poster_attachment))] ++ rest.
Proof.
  assert (H1 : mentioned poster_message = true) by reflexivity.
  assert (H2 : author poster_message <> 42%Z) by (simpl; lia).
  assert (H3 : attachments poster_message = [poster_attachment]) by reflexivity.
  assert (H4 : begins_with (lit "image/") (lit "image/png"))
    by (exists (lit "png"); reflexivity).
  assert (H5 : attachment_read (answering bad_input) poster_attachment = Ok [])
    by reflexivity.
  split; [repeat split; assumption|].
  exact (image_dispatch_request sample_repr sample_env (answering bad_input)
           42 poster_message poster_attachment [] (lit "image/png") [] []
           H1 H2 H3 eq_refl H4 H5 eq_refl eq_refl).
Defined.

Lemma failure_report_gone_witness :
  (platform_fault (lost_at 2 timed_out) (length (@nil event)) = None /\
   http_post (lost_at 2 timed_out) (text_url sample_env)
             (JsonText (lit "May 5 Berlin") (bearer sample_env)) = Raise timed_out /\
   platform_fault (lost_at 2 timed_out) (length (@nil event) + 2) =
     Some (Exn NotFound (lit "404 Not Found")) /\
   exn_kind_of (Exn NotFound (lit "404 Not Found")) = NotFound) /\
  process_text sample_repr sample_env (lost_at 2 timed_out) (lit "May 5 Berlin") [] =
  (Ok tt,
   [AddReaction hourglass;
    HttpPost (text_url sample_env)
             (JsonText (lit "May 5 Berlin") (bearer sample_env));
    ClearReactions]).
Proof.
  split; [repeat split; reflexivity|].
  exact (failure_report_gone sample_repr sample_env (lost_at 2 timed_out)
           (lit "May 5 Berlin") timed_out (Exn NotFound (lit "404 Not Found")) []
           eq_refl eq_refl eq_refl eq_refl).
Defined.

Lemma refused_report_escalates_witness :
  (mentioned tour_message = true /\
   author tour_message <> 42%Z /\
   attachments tour_message = [] /\
   stripped_content 42 tour_message <> [] /\
   http_post (refused_at 3 timed_out) (text_url sample_env)
             (JsonText (stripped_content 42 tour_message) (bearer sample_env)) =
     Raise timed_out /\
   platform_fault (refused_at 3 timed_out) (length (@nil event) + 3) =
     Some (Exn OtherError (lit "403 Forbidden")) /\
   exn_kind_of (Exn OtherError (lit "403 Forbidden")) <> NotFound) /\
  on_message sample_repr sample_env (refused_at 3 timed_out) 42 tour_message [] =
  (Ok tt,
   [AddReaction hourglass; AddReaction hourglass;
    HttpPost (text_url sample_env)
             (JsonText (stripped_content 42 tour_message) (bearer sample_env));
    ClearReactions;
    ClearReactions; AddReaction cross_mark;
    Reply (lit "Error: 403 Forbidden")]).
Proof.
  assert (H1 : mentioned tour_message = true) by reflexivity.
  assert (H2 : author tour_message <> 42%Z) by (simpl; lia).
  assert (H3 : attachments tour_message = []) by reflexivity.
  assert (H4 : stripped_content 42 tour_message <> [])
    by (vm_compute; discriminate).
  destruct tour_message_no_link as [H5 H6].
  assert (H7 : exn_kind_of (Exn OtherError (lit "403 Forbidden")) <> NotFound)
    by discriminate.
  split; [repeat split; try assumption; reflexivity|].
  exact (refused_report_escalates sample_repr sample_env (refused_at 3 timed_out)
           42 tour_message timed_out (Exn OtherError (lit "403 Forbidden")) []
           H1 H2 H3 H4 H5 H6 eq_refl eq_refl eq_refl eq_refl H7
           eq_refl eq_refl eq_refl).
Defined.

Lemma dispatch_priority_witness :
  (mentioned capital_message = true /\
   author capital_message <> 42%Z /\
   (stripped_content 42 capital_message <> [] \/ attachments capital_message <> []) /\
   typed_first (attachments capital_message)) /\
  on_message sample_repr sample_env (answering bad_input) 42 capital_message =
  taken_up (answering bad_input)
           (process_image_url sample_repr sample_env (answering bad_input)
                              capital_link).
Proof.
  assert (H1 : mentioned capital_message = true) by reflexivity.
  assert (H2 : author capital_message <> 42%Z) by (simpl; lia).
  assert (H3 : stripped_content 42 capital_message <> [] \/
               attachments capital_message <> [])
    by (left; vm_compute; discriminate).
  assert (H4 : typed_first (attachments capital_message))
    by (intros a rest E; discriminate).
  assert (Et : stripped_content 42 capital_message = capital_link)
    by (vm_compute; reflexivity).
  split; [repeat split; assumption|].
  destruct (dispatch_priority sample_repr sample_env (answering bad_input) 42
              capital_message H1 H2 H3 H4)
    as [[(a & rest & t & E & _) _] | [(_ & _ & E) | (_ & Hno & _)]].
  - discriminate.
  - rewrite Et in E. exact E.
  - destruct Hno. rewrite Et. apply is_image_url_spec. vm_compute. reflexivity.
Defined.

(** X24.  A message taken up whose first attachment has no content type
    ([None]): the test of the image attachment raises the attribute error,
    no pipeline runs (no read, no download, no request), and the handler of
    [on_message] clears the markers, sets the failure marker and replies
    with the message of the error. *)
Theorem untyped_attachment_reported (repr_str : str -> str) (env : environ)
        (world : outside) (self_id : Z) (m : message) (a : attachment)
        (rest : list attachment) (tr : trace) :
  reliable world ->
  mentioned m = true ->
  author m <> self_id ->
  attachments m = a :: rest ->
  content_type a = None ->
  on_message repr_str env world self_id m tr =
  (Ok tt,
   tr ++ [AddReaction hourglass;
          ClearReactions; AddReaction cross_mark;
          Reply (lit "Error: 'NoneType' object has no attribute 'startswith'")]).
Proof.
  intros H Hm Ha Hatt Hnone.
  assert (Hne : stripped_content self_id m <> [] \/ attachments m <> [])
    by (right; rewrite Hatt; discriminate).
  assert (Hk : classify (attachments m) (stripped_content self_id m) =
               Raise (AttributeError JNull (lit "startswith")))
    by (unfold classify, first_image; now rewrite Hatt, Hnone).
  rewrite (on_message_unclassified repr_str env world self_id m _ Hm Ha Hne Hk).
  unfold bind at 1, add_reaction at 1, platform at 1. rewrite H.
  unfold last_resort. rewrite (report_ok world _ _ H).
  now rewrite <- app_assoc.
Qed.

Lemma untyped_attachment_reported_witness :
  (reliable (answering bad_input) /\
   mentioned untyped_message = true /\
   author untyped_message <> 42%Z /\
   attachments untyped_message = [untyped_attachment] /\
   content_type untyped_attachment = None) /\
  on_message sample_repr sample_env (answering bad_input) 42 untyped_message [] =
  (Ok tt,
   [AddReaction hourglass;
    ClearReactions; AddReaction cross_mark;
    Reply (lit "Error: 'NoneType' object has no attribute 'startswith'")]).
Proof.
  assert (H1 : reliable (answering bad_input)) by (intros n; reflexivity).
  assert (H2 : mentioned untyped_message = true) by reflexivity.
  assert (H3 : author untyped_message <> 42%Z) by (simpl; lia).
  split; [repeat split; assumption|].
  exact (untyped_attachment_reported sample_repr sample_env (answering bad_input)
           42 untyped_message untyped_attachment [] [] H1 H2 H3 eq_refl eq_refl).
Defined.
